(** * Simulated beacon driver (eth/catalyst/simulated_beacon.go)

    A shallow embedding of the simulated consensus driver of go-ethereum:
    the withdrawal queue, the epoch-aligned finality rule and the
    [sealBlock] state machine with its manual entry points [Commit],
    [Fork] and [AdjustTime].

    Conventions.
    - [uint64] values are integers in [0, 2^64); every addition,
      subtraction and multiplication of the source is followed by its
      wrap-around ([wrap64]).
    - A Go pointer that the code tests against [nil] or dereferences is an
      [option]; dereferencing [None] is a crash ([Crashed]), which is not
      an [error] value.
    - The execution engine, the chain and the transaction pool are outside
      this file of the source.  They are a record of operations
      ([Backend]) over an abstract world [W]; nothing is assumed about how
      two reads of the chain relate, since the chain can be rewound by
      another goroutine between them.
    - Every call to the engine, to the pool or to [SetCanonical] is
      recorded, with its answer, in a trace of [Event]s; reads of the
      chain, of the pool and of the clock are not.
    - Of the timer loop, the decision of [Start] and the body of the
      timer case of [loop] are modelled; the goroutine, the timer, the
      shutdown channel and the event feed of the withdrawal queue are
      left out. *)

From Stdlib Require Import ZArith String List Bool Lia Sorted.
From Stdlib Require Import Init.Byte.
Import ListNotations.
Open Scope Z_scope.

(** ** Machine integers *)

Definition wrap64 (z : Z) : Z := z mod 2 ^ 64.

Definition is_uint64 (z : Z) : Prop := 0 <= z < 2 ^ 64.

Definition MaxUint64 : Z := 2 ^ 64 - 1.

(** Conversion [uint64(x)] of a signed 64-bit value. *)
Definition uint64_of_int64 (z : Z) : Z := wrap64 z.

(** ** Constants *)

Definition devEpochLength : Z := 32.

(** Go's [time.Second], in nanoseconds. *)
Definition Second : Z := 1000000000.

(** Go's [math.MaxInt64]. *)
Definition MaxInt64 : Z := 2 ^ 63 - 1.

(** Modelled from the spec: the byte length of a [kzg4844.Commitment]
    (crypto/kzg4844), the one length at which a commitment is not
    "malformed". *)
Definition CommitmentLength : nat := 48.

(** ** Data of the chain and of the engine API *)

(** Modelled from the spec: [common.Hash] and [common.Address]
    (package common), byte arrays compared with [==], read as numbers. *)
Definition Hash : Type := Z.
Definition Address : Type := Z.
Definition zeroHash : Hash := 0.

(** Modelled from the spec: [engine.PayloadID] (beacon/engine), eight
    bytes read as a number. *)
Definition PayloadID : Type := Z.

(** Go [error] values carry their message. *)
Definition Error : Type := string.

(** Modelled from the spec: [types.Withdrawal] (core/types), "index,
    validator index, address, amount"; [WithdrawalAddress] is the field
    [Address]. *)
Record Withdrawal : Type := mkWithdrawal {
  Index : Z;
  Validator : Z;
  WithdrawalAddress : Address;
  Amount : Z
}.

Definition Withdrawals : Type := list Withdrawal.

(** Modelled from the spec: [types.Header] (core/types), with what the
    driver reads of it; [HeaderHash] is the result of [Hash()],
    [HeaderNumber] the big integer [Number], [HeaderTime] the field
    [Time]. *)
Record Header : Type := mkHeader {
  HeaderHash : Hash;
  HeaderNumber : Z;
  HeaderTime : Z
}.

(** Modelled from the spec: [types.Block] (core/types); the driver only
    asks a block for its hash. *)
Record Block : Type := mkBlock {
  BlockHeader : Header
}.

Definition Block_Hash (b : Block) : Hash := HeaderHash (BlockHeader b).

(** Modelled from the spec: the values of [forks.Fork] (params/forks)
    that [params.ChainConfig.LatestFork] can report, "ordered oldest to
    newest", the ones before the merge folded into [PreMerge]. *)
Module forks.

Inductive Fork : Type :=
| PreMerge
| Paris
| Shanghai
| Cancun
| Prague.

End forks.

(** Modelled from the spec: [engine.PayloadVersion] (beacon/engine), the
    "version tag" of the payload protocol. *)
Inductive PayloadVersion : Type :=
| PayloadV1
| PayloadV2
| PayloadV3.

(** The byte behind an [engine.PayloadVersion]. *)
Definition PayloadVersion_byte (v : PayloadVersion) : Z :=
  match v with
  | PayloadV1 => 1
  | PayloadV2 => 2
  | PayloadV3 => 3
  end.

(** Modelled from the spec: [engine.ForkchoiceStateV1] (beacon/engine),
    "three content hashes". *)
Record ForkchoiceStateV1 : Type := mkForkchoiceState {
  HeadBlockHash : Hash;
  SafeBlockHash : Hash;
  FinalizedBlockHash : Hash
}.

(** Modelled from the spec: [engine.PayloadAttributes] (beacon/engine),
    "timestamp, fee recipient, withdrawals subset, randomness seed,
    optional beacon-root placeholder"; [AttrWithdrawals] is the field
    [Withdrawals]. *)
Record PayloadAttributes : Type := mkPayloadAttributes {
  Timestamp : Z;
  Random : Hash;
  SuggestedFeeRecipient : Address;
  AttrWithdrawals : Withdrawals;
  BeaconRoot : option Hash
}.

(** Modelled from the spec: the status strings of beacon/engine. *)
Definition VALID : string := "VALID".
Definition INVALID : string := "INVALID".
Definition SYNCING : string := "SYNCING".
Definition ACCEPTED : string := "ACCEPTED".

(** Modelled from the spec: [engine.PayloadStatusV1] (beacon/engine); the
    three pointer fields are optional. *)
Record PayloadStatusV1 : Type := mkPayloadStatus {
  Witness : option (list byte);
  Status : string;
  LatestValidHash : option Hash;
  ValidationError : option string
}.

(** Modelled from the spec: [engine.ForkChoiceResponse] (beacon/engine),
    "(status, payloadID?)"; [ResponsePayloadID] is the pointer field
    [PayloadID]. *)
Record ForkChoiceResponse : Type := mkForkChoiceResponse {
  PayloadStatus : PayloadStatusV1;
  ResponsePayloadID : option PayloadID
}.

(** Modelled from the spec: [engine.STATUS_SYNCING] (beacon/engine), the
    response by which "the engine reports a syncing status": status
    SYNCING and nothing else. *)
Definition STATUS_SYNCING : ForkChoiceResponse :=
  mkForkChoiceResponse (mkPayloadStatus None SYNCING None None) None.

Definition is_nil {A : Type} (p : option A) : bool :=
  match p with
  | None => true
  | Some _ => false
  end.

(** Go's [==] on a [ForkChoiceResponse] against [STATUS_SYNCING]: the
    status strings are equal and every pointer field equals the [nil] of
    the constant. *)
Definition is_STATUS_SYNCING (r : ForkChoiceResponse) : bool :=
  is_nil (Witness (PayloadStatus r))
  && String.eqb (Status (PayloadStatus r)) SYNCING
  && is_nil (LatestValidHash (PayloadStatus r))
  && is_nil (ValidationError (PayloadStatus r))
  && is_nil (ResponsePayloadID r).

(** Modelled from the spec: [engine.ExecutableData] (beacon/engine), with
    the fields the driver reads ([PayloadTimestamp] is the field
    [Timestamp]). *)
Record ExecutableData : Type := mkExecutableData {
  Number : Z;
  BlockHash : Hash;
  PayloadTimestamp : Z
}.

(** Modelled from the spec: [engine.BlobsBundleV1] (beacon/engine), of
    which the driver reads the commitments. *)
Record BlobsBundleV1 : Type := mkBlobsBundle {
  Commitments : list (list byte)
}.

(** Modelled from the spec: [engine.ExecutionPayloadEnvelope]
    (beacon/engine), "payload plus optional blob-commitment bundle and
    optional requests"; a [nil] slice is [None]. *)
Record ExecutionPayloadEnvelope : Type := mkEnvelope {
  ExecutionPayload : ExecutableData;
  BlobsBundle : option BlobsBundleV1;
  Requests : option (list (list byte))
}.

(** ** Calls that leave the driver *)

Inductive Event : Type :=
| EvTxPoolSync (r : option Error)
| EvForkchoiceUpdated (state : ForkchoiceStateV1)
    (attrs : option PayloadAttributes) (version : PayloadVersion)
    (r : Error + ForkChoiceResponse)
| EvGetPayload (id : PayloadID) (full : bool)
    (r : Error + ExecutionPayloadEnvelope)
| EvNewPayload (payload : ExecutableData) (blobHashes : option (list Hash))
    (beaconRoot : option Hash) (requests : option (list (list byte)))
    (r : Error + PayloadStatusV1)
| EvSetCanonical (b : Block) (r : option Error)
| EvTxPoolClear.

(** The collaborators of the driver, over a world [W]: the chain
    ([CurrentBlock], [GetBlockByNumber], [GetBlockByHash],
    [SetCanonical]), the chain configuration ([LatestFork]), the pool,
    the engine API, the entropy source, the clock and the blob hash
    primitive.  A call that returns [(value, error)] answers with one of
    the two. *)
Record Backend (W : Type) : Type := mkBackend {
  CurrentBlock : W -> option Header;
  GetBlockByNumber : W -> Z -> option Block;
  GetBlockByHash : W -> Hash -> option Block;
  SetCanonical : W -> Block -> option Error * W;
  LatestFork : Z -> forks.Fork;
  TxPoolSync : W -> option Error * W;
  TxPoolPending : W -> list Address;
  TxPoolClear : W -> W;
  forkchoiceUpdated : W -> ForkchoiceStateV1 -> option PayloadAttributes ->
                      PayloadVersion -> bool -> (Error + ForkChoiceResponse) * W;
  getPayload : W -> PayloadID -> bool -> (Error + ExecutionPayloadEnvelope) * W;
  newPayload : W -> ExecutableData -> option (list Hash) -> option Hash ->
               option (list (list byte)) -> bool -> (Error + PayloadStatusV1) * W;
  randRead : W -> Hash * W;
  timeNowUnix : W -> Z;
  CalcBlobHashV1 : list byte -> Hash
}.

Arguments CurrentBlock {W} _ _.
Arguments GetBlockByNumber {W} _ _ _.
Arguments GetBlockByHash {W} _ _ _.
Arguments SetCanonical {W} _ _ _.
Arguments LatestFork {W} _ _.
Arguments TxPoolSync {W} _ _.
Arguments TxPoolPending {W} _ _.
Arguments TxPoolClear {W} _ _.
Arguments forkchoiceUpdated {W} _ _ _ _ _ _.
Arguments getPayload {W} _ _ _ _.
Arguments newPayload {W} _ _ _ _ _ _ _.
Arguments randRead {W} _ _.
Arguments timeNowUnix {W} _ _.
Arguments CalcBlobHashV1 {W} _ _.

(** ** The withdrawal queue *)

(** [withdrawalQueue]: the pending withdrawals in arrival order.  The
    mutex makes [add] and [pop] atomic; the event feed only notifies
    subscribers and holds no queue state. *)
Record withdrawalQueue : Type := mkQueue {
  pending : Withdrawals
}.

Definition emptyQueue : withdrawalQueue := mkQueue [].

(** [add] appends and always returns a nil error. *)
Definition add (w : withdrawalQueue) (withdrawal : Withdrawal) : withdrawalQueue :=
  mkQueue (pending w ++ [withdrawal]).

(** [pop]: [count] is a Go [int].  Slicing [pending[0:count]] with a
    negative [count] is a run-time panic, here [None]. *)
Definition pop (w : withdrawalQueue) (count : Z)
  : option (Withdrawals * withdrawalQueue) :=
  let count := Z.min count (Z.of_nat (length (pending w))) in
  if count <? 0 then None
  else
    let popped := firstn (Z.to_nat count) (pending w) in
    Some (popped, mkQueue (skipn (Z.to_nat count) (pending w))).

(** A history of queue operations, run from left to right; the result
    is the queue and what each [pop] returned, oldest first. *)
Inductive QueueOp : Type :=
| OpAdd (w : Withdrawal)
| OpPop (count : Z).

Fixpoint runQueue (ops : list QueueOp) (q : withdrawalQueue)
  : option (withdrawalQueue * list Withdrawals) :=
  match ops with
  | [] => Some (q, [])
  | OpAdd w :: rest => runQueue rest (add q w)
  | OpPop n :: rest =>
      match pop q n with
      | None => None
      | Some (popped, q') =>
          match runQueue rest q' with
          | None => None
          | Some (q'', outs) => Some (q'', popped :: outs)
          end
      end
  end.

Fixpoint added (ops : list QueueOp) : Withdrawals :=
  match ops with
  | [] => []
  | OpAdd w :: rest => w :: added rest
  | OpPop _ :: rest => added rest
  end.

(** An operation that does not pop a negative count. *)
Definition nonNegative (op : QueueOp) : Prop :=
  match op with
  | OpAdd _ => True
  | OpPop count => 0 <= count
  end.

(** ** The finality rule *)

(** The number computed at the head of [finalizedBlockHash]. *)
Definition finalizedNumber (number : Z) : Z :=
  if number mod devEpochLength =? 0 then number
  else wrap64 (wrap64 (number - 1) / devEpochLength * devEpochLength).

(** [big.Int.Uint64]: the low 64 bits of the absolute value. *)
Definition Uint64 (n : Z) : Z := wrap64 (Z.abs n).

(** ** The driver and the monad of its methods *)

(** [SimulatedBeacon]: the fields that hold state.  [eth] and
    [engineAPI] are the handles behind [Backend]; [shutdownCh] belongs
    to the timer loop. *)
Record SimulatedBeacon : Type := mkSimulatedBeacon {
  period : Z;
  withdrawals : withdrawalQueue;
  feeRecipient : Address;
  curForkchoiceState : ForkchoiceStateV1;
  lastBlockTime : Z
}.

Definition set_curForkchoiceState (c : SimulatedBeacon) (s : ForkchoiceStateV1)
  : SimulatedBeacon :=
  mkSimulatedBeacon (period c) (withdrawals c) (feeRecipient c) s (lastBlockTime c).

Definition set_lastBlockTime (c : SimulatedBeacon) (t : Z) : SimulatedBeacon :=
  mkSimulatedBeacon (period c) (withdrawals c) (feeRecipient c)
    (curForkchoiceState c) t.

Definition set_withdrawals (c : SimulatedBeacon) (q : withdrawalQueue)
  : SimulatedBeacon :=
  mkSimulatedBeacon (period c) q (feeRecipient c) (curForkchoiceState c)
    (lastBlockTime c).

Definition set_feeRecipient (c : SimulatedBeacon) (a : Address) : SimulatedBeacon :=
  mkSimulatedBeacon (period c) (withdrawals c) a (curForkchoiceState c)
    (lastBlockTime c).

(** How a method ends: it returns (for a method returning [error], with
    a nil error), it returns a non-nil [error], or it panics. *)
Inductive Outcome (A : Type) : Type :=
| Done (a : A)
| Failed (err : Error)
| Crashed (msg : string).

Arguments Done {A} a.
Arguments Failed {A} err%_string.
Arguments Crashed {A} msg%_string.

(** A run of a method: how it ended, the receiver and the world it left
    behind (mutations made before an error or a panic stay), and the
    calls it issued, oldest first. *)
Record Run (D W A : Type) : Type := mkRun {
  outcome : Outcome A;
  driverAfter : D;
  worldAfter : W;
  trace : list Event
}.

Arguments mkRun {D W A} _ _ _ _.
Arguments outcome {D W A} _.
Arguments driverAfter {D W A} _.
Arguments worldAfter {D W A} _.
Arguments trace {D W A} _.

Definition M (D W A : Type) : Type := D -> W -> Run D W A.

Definition ret {D W A : Type} (a : A) : M D W A :=
  fun d w => mkRun (Done a) d w [].

Definition fail {D W A : Type} (err : Error) : M D W A :=
  fun d w => mkRun (Failed err) d w [].

Definition crash {D W A : Type} (msg : string) : M D W A :=
  fun d w => mkRun (Crashed msg) d w [].

Arguments fail {D W A} err%_string _ _.
Arguments crash {D W A} msg%_string _ _.

Definition bind {D W A A' : Type} (m : M D W A) (f : A -> M D W A') : M D W A' :=
  fun d w =>
    match m d w with
    | mkRun (Done a) d1 w1 t1 =>
        match f a d1 w1 with
        | mkRun o d2 w2 t2 => mkRun o d2 w2 (t1 ++ t2)
        end
    | mkRun (Failed err) d1 w1 t1 => mkRun (Failed err) d1 w1 t1
    | mkRun (Crashed msg) d1 w1 t1 => mkRun (Crashed msg) d1 w1 t1
    end.

Declare Scope driver_scope.
Delimit Scope driver_scope with driver.

Notation "x <- c1 ;; c2" := (bind c1 (fun x => c2))
  (at level 61, c1 at next level, right associativity) : driver_scope.
Notation "c1 ;; c2" := (bind c1 (fun _ => c2))
  (at level 61, right associativity) : driver_scope.

Open Scope driver_scope.

Definition getDriver {D W : Type} : M D W D :=
  fun d w => mkRun (Done d) d w [].

Definition setDriver {D W : Type} (d' : D) : M D W unit :=
  fun _ w => mkRun (Done tt) d' w [].

(** A read of the chain, the pool or the clock. *)
Definition read {D W A : Type} (f : W -> A) : M D W A :=
  fun d w => mkRun (Done (f w)) d w [].

(** A step of the world that is not an engine call (drawing entropy). *)
Definition step {D W A : Type} (f : W -> A * W) : M D W A :=
  fun d w => mkRun (Done (fst (f w))) d (snd (f w)) [].

(** A recorded call. *)
Definition call {D W A : Type} (f : W -> A * W) (ev : A -> Event) : M D W A :=
  fun d w => mkRun (Done (fst (f w))) d (snd (f w)) [ev (fst (f w))].

Definition nilDereference : string :=
  "invalid memory address or nil pointer dereference".

Definition deref {D W A : Type} (p : option A) : M D W A :=
  match p with
  | Some a => ret a
  | None => crash nilDereference
  end.

(** [if err := m; err != nil { log.Warn(...) }]: the error is absorbed,
    a panic is not. *)
Definition logged {D W : Type} (m : M D W unit) : M D W (option Error) :=
  fun d w =>
    match m d w with
    | mkRun (Done _) d1 w1 t1 => mkRun (Done None) d1 w1 t1
    | mkRun (Failed err) d1 w1 t1 => mkRun (Done (Some err)) d1 w1 t1
    | mkRun (Crashed msg) d1 w1 t1 => mkRun (Crashed msg) d1 w1 t1
    end.

Section Driver.

Context {W : Type} (B : Backend W).

Definition payloadVersion {D : Type} (time : Z) : M D W PayloadVersion :=
  match LatestFork B time with
  | forks.Prague | forks.Cancun => ret PayloadV3
  | forks.Paris | forks.Shanghai => ret PayloadV2
  | forks.PreMerge =>
      crash "invalid fork, simulated beacon needs to be started post-merge"
  end.

(** [cap the dev mode period]: [math.MaxInt64 / time.Second]. *)
Definition maxPeriod : Z := MaxInt64 / Second.

Definition NewSimulatedBeacon (period : Z) (feeRecipient : Address)
  : M unit W SimulatedBeacon :=
  p <- read (CurrentBlock B) ;;
  block <- deref p ;;
  let current :=
    mkForkchoiceState (HeaderHash block) (HeaderHash block) (HeaderHash block) in
  (if Z.sgn (HeaderNumber block) =? 0 then
     version <- payloadVersion (HeaderTime block) ;;
     r <- call (fun w => forkchoiceUpdated B w current None version false)
            (EvForkchoiceUpdated current None version) ;;
     match r with
     | inl err => fail err
     | inr _ => ret tt
     end
   else ret tt) ;;
  ret (mkSimulatedBeacon (Z.min period maxPeriod) emptyQueue feeRecipient
         current (HeaderTime block)).

Definition setFeeRecipient (feeRecipient : Address) : M SimulatedBeacon W unit :=
  c <- getDriver ;;
  setDriver (set_feeRecipient c feeRecipient).

(** [finalizedBlockHash]: the hash of the block at [finalizedNumber],
    [None] when the chain has no block there. *)
Definition finalizedBlockHash (number : Z) : M SimulatedBeacon W (option Hash) :=
  finalizedBlock <- read (fun w => GetBlockByNumber B w (finalizedNumber number)) ;;
  match finalizedBlock with
  | Some finalizedBlock => ret (Some (Block_Hash finalizedBlock))
  | None => ret None
  end.

Definition setCurrentState (headHash finalizedHash : Hash) : M SimulatedBeacon W unit :=
  c <- getDriver ;;
  setDriver (set_curForkchoiceState c
               (mkForkchoiceState headHash headHash finalizedHash)).

(** The loop over [envelope.BlobsBundle.Commitments]. *)
Fixpoint calcBlobHashes (commitments : list (list byte)) (blobHashes : list Hash)
  : Error + list Hash :=
  match commitments with
  | [] => inr blobHashes
  | commit :: rest =>
      if negb (Nat.eqb (length commit) CommitmentLength)
      then inl "invalid commitment length"%string
      else calcBlobHashes rest (blobHashes ++ [CalcBlobHashV1 B commit])
  end.

Definition sealBlock (withdrawals : Withdrawals) (timestamp : Z)
  : M SimulatedBeacon W unit :=
  c <- getDriver ;;
  let timestamp :=
    if timestamp <=? lastBlockTime c then wrap64 (lastBlockTime c + 1)
    else timestamp in
  let feeRecipient := feeRecipient c in
  (* Reset to CurrentBlock in case of the chain was rewound *)
  p <- read (CurrentBlock B) ;;
  header <- deref p ;;
  (if negb (HeadBlockHash (curForkchoiceState c) =? HeaderHash header) then
     finalizedHash <- finalizedBlockHash (Uint64 (HeaderNumber header)) ;;
     fh <- deref finalizedHash ;;
     setCurrentState (HeaderHash header) fh
   else ret tt) ;;
  err <- call (TxPoolSync B) EvTxPoolSync ;;
  match err with
  | Some err => fail ("failed to sync txpool: " ++ err)%string
  | None =>
  version <- payloadVersion timestamp ;;
  random <- step (randRead B) ;;
  c <- getDriver ;;
  let attrs :=
    mkPayloadAttributes timestamp random feeRecipient withdrawals (Some zeroHash) in
  r <- call (fun w => forkchoiceUpdated B w (curForkchoiceState c) (Some attrs)
                        version false)
         (EvForkchoiceUpdated (curForkchoiceState c) (Some attrs) version) ;;
  match r with
  | inl err => fail err
  | inr fcResponse =>
  if is_STATUS_SYNCING fcResponse then
    fail "chain rewind prevented invocation of payload creation"
  else
  (* If the payload was already known, we can skip the rest of the process. *)
  if String.eqb (Status (PayloadStatus fcResponse)) VALID
     && is_nil (ResponsePayloadID fcResponse)
  then ret tt
  else
  id <- deref (ResponsePayloadID fcResponse) ;;
  r <- call (fun w => getPayload B w id true) (EvGetPayload id true) ;;
  match r with
  | inl err => fail err
  | inr envelope =>
  let payload := ExecutionPayload envelope in
  finalizedHash <-
    (if Number payload mod devEpochLength =? 0 then ret (BlockHash payload)
     else
       fh <- finalizedBlockHash (Number payload) ;;
       match fh with
       | None =>
           fail "chain rewind interrupted calculation of finalized block hash"
       | Some fh => ret fh
       end) ;;
  (* Compute post-shanghai fields *)
  fields <-
    (if PayloadVersion_byte version >? PayloadVersion_byte PayloadV2 then
       blobHashes <-
         match BlobsBundle envelope with
         | Some bundle =>
             match calcBlobHashes (Commitments bundle) [] with
             | inl err => fail err
             | inr blobHashes => ret blobHashes
             end
         | None => ret []
         end ;;
       ret (Some blobHashes, Some zeroHash, Requests envelope)
     else ret (None, None, None)) ;;
  let '(blobHashes, beaconRoot, requests) := fields in
  (* Mark the payload as canon *)
  r <- call (fun w => newPayload B w payload blobHashes beaconRoot requests false)
         (EvNewPayload payload blobHashes beaconRoot requests) ;;
  match r with
  | inl err => fail err
  | inr _ =>
  setCurrentState (BlockHash payload) finalizedHash ;;
  (* Mark the block containing the payload as canonical *)
  c <- getDriver ;;
  r <- call (fun w => forkchoiceUpdated B w (curForkchoiceState c) None version false)
         (EvForkchoiceUpdated (curForkchoiceState c) None version) ;;
  match r with
  | inl err => fail err
  | inr _ =>
  c <- getDriver ;;
  setDriver (set_lastBlockTime c (PayloadTimestamp payload))
  end end end end end.

(** [c.withdrawals.pop(count)] on the receiver's queue. *)
Definition popWithdrawals (count : Z) : M SimulatedBeacon W Withdrawals :=
  c <- getDriver ;;
  match pop (withdrawals c) count with
  | None => crash "slice bounds out of range"
  | Some (popped, q) => setDriver (set_withdrawals c q) ;; ret popped
  end.

(** [c.withdrawals.add(withdrawal)]. *)
Definition addWithdrawal (withdrawal : Withdrawal) : M SimulatedBeacon W unit :=
  c <- getDriver ;;
  setDriver (set_withdrawals c (add (withdrawals c) withdrawal)).

Definition Commit : M SimulatedBeacon W Hash :=
  withdrawals <- popWithdrawals 10 ;;
  now <- read (timeNowUnix B) ;;
  logged (sealBlock withdrawals (uint64_of_int64 now)) ;;
  p <- read (CurrentBlock B) ;;
  header <- deref p ;;
  ret (HeaderHash header).

Definition Rollback : M SimulatedBeacon W unit :=
  call (fun w => (tt, TxPoolClear B w)) (fun _ => EvTxPoolClear).

Definition Fork (parentHash : Hash) : M SimulatedBeacon W unit :=
  (* Ensure no pending transactions. *)
  call (TxPoolSync B) EvTxPoolSync ;;
  pendingTxs <- read (TxPoolPending B) ;;
  if negb (Nat.eqb (length pendingTxs) 0) then fail "pending block dirty"
  else
  parent <- read (fun w => GetBlockByHash B w parentHash) ;;
  match parent with
  | None => fail "parent not found"
  | Some parent =>
      err <- call (fun w => SetCanonical B w parent) (EvSetCanonical parent) ;;
      match err with
      | Some err => fail err
      | None => ret tt
      end
  end.

(** [adjustment] is a [time.Duration], a signed count of nanoseconds;
    Go's integer division truncates toward zero. *)
Definition AdjustTime (adjustment : Z) : M SimulatedBeacon W unit :=
  pendingTxs <- read (TxPoolPending B) ;;
  if negb (Nat.eqb (length pendingTxs) 0)
  then fail "could not adjust time on non-empty block"
  else
  parent <- read (CurrentBlock B) ;;
  match parent with
  | None => fail "parent not found"
  | Some parent =>
      withdrawals <- popWithdrawals 10 ;;
      sealBlock withdrawals
        (wrap64 (HeaderTime parent + uint64_of_int64 (Z.quot adjustment Second)))
  end.

End Driver.

(** ** Runs of several seal cycles *)

(** The timestamp of the block a seal cycle produced: the cycle ended
    without error and its last call is the canonicalizing
    [forkchoiceUpdated] of a payload it had fetched. *)
Fixpoint fetchedPayload (t : list Event) : option ExecutableData :=
  match t with
  | [] => None
  | EvGetPayload _ _ (inr envelope) :: _ => Some (ExecutionPayload envelope)
  | _ :: rest => fetchedPayload rest
  end.

Definition sealedTimestamp {D W : Type} (r : Run D W unit) : option Z :=
  match outcome r with
  | Done _ => option_map PayloadTimestamp (fetchedPayload (trace r))
  | _ => None
  end.

(** One request to seal: the world the call finds (other goroutines act
    between two calls), the withdrawals and the requested timestamp. *)
Record SealRequest (W : Type) : Type := mkSealRequest {
  requestWorld : W;
  requestWithdrawals : Withdrawals;
  requestTimestamp : Z
}.

Arguments mkSealRequest {W} _ _ _.
Arguments requestWorld {W} _.
Arguments requestWithdrawals {W} _.
Arguments requestTimestamp {W} _.

(** Successive calls of [sealBlock] on one driver, until the list ends
    or the process panics; the result is the timestamps of the blocks
    produced, oldest first. *)
Fixpoint sealBlocks {W : Type} (B : Backend W) (c : SimulatedBeacon)
  (requests : list (SealRequest W)) : list Z :=
  match requests with
  | [] => []
  | q :: rest =>
      let r := sealBlock B (requestWithdrawals q) (requestTimestamp q) c
                 (requestWorld q) in
      match outcome r with
      | Crashed _ => []
      | _ =>
          match sealedTimestamp r with
          | Some t => t :: sealBlocks B (driverAfter r) rest
          | None => sealBlocks B (driverAfter r) rest
          end
      end
  end.

(** Every call of the run is entered with [lastBlockTime] below the top
    of [uint64], where [lastBlockTime + 1] wraps to zero. *)
Fixpoint belowMaxUint64 {W : Type} (B : Backend W) (c : SimulatedBeacon)
  (requests : list (SealRequest W)) : Prop :=
  match requests with
  | [] => True
  | q :: rest =>
      0 <= lastBlockTime c < MaxUint64 /\
      belowMaxUint64 B
        (driverAfter (sealBlock B (requestWithdrawals q) (requestTimestamp q) c
                        (requestWorld q)))
        rest
  end.

(** The engine builds the payload it hands out with the timestamp of the
    attributes it was given. *)
Definition buildsWithAttributes {W : Type} (B : Backend W) : Prop :=
  forall w state attrs version response id envelope,
    fst (forkchoiceUpdated B w state (Some attrs) version false) = inr response ->
    ResponsePayloadID response = Some id ->
    fst (getPayload B (snd (forkchoiceUpdated B w state (Some attrs) version false))
           id true) = inr envelope ->
    PayloadTimestamp (ExecutionPayload envelope) = Timestamp attrs.

(** ** Reading a trace *)

(** The answer to the first [forkchoiceUpdated] of a trace. *)
Fixpoint firstForkchoiceUpdated (t : list Event)
  : option (Error + ForkChoiceResponse) :=
  match t with
  | [] => None
  | EvForkchoiceUpdated _ _ _ r :: _ => Some r
  | _ :: rest => firstForkchoiceUpdated rest
  end.

(** The attributes carried by the first [forkchoiceUpdated] of a trace. *)
Fixpoint firstAttributes (t : list Event) : option PayloadAttributes :=
  match t with
  | [] => None
  | EvForkchoiceUpdated _ attrs _ _ :: _ => attrs
  | _ :: rest => firstAttributes rest
  end.

Definition isForkchoiceUpdated (e : Event) : bool :=
  match e with
  | EvForkchoiceUpdated _ _ _ _ => true
  | _ => false
  end.

Definition isGetPayload (e : Event) : bool :=
  match e with
  | EvGetPayload _ _ _ => true
  | _ => false
  end.

Definition isNewPayload (e : Event) : bool :=
  match e with
  | EvNewPayload _ _ _ _ _ => true
  | _ => false
  end.

Definition isSetCanonical (e : Event) : bool :=
  match e with
  | EvSetCanonical _ _ => true
  | _ => false
  end.

(** A call that can change the chain: every engine call and
    [SetCanonical]. *)
Definition mutatesChain (e : Event) : bool :=
  match e with
  | EvTxPoolSync _ | EvTxPoolClear => false
  | _ => true
  end.

(** The payload of the first [newPayload] of the trace that returned a
    nil error.  The status of its answer can be anything, INVALID
    included: [sealBlock] discards it. *)
Fixpoint newPayloadReturned (t : list Event) : option ExecutableData :=
  match t with
  | [] => None
  | EvNewPayload payload _ _ _ (inr _) :: _ => Some payload
  | _ :: rest => newPayloadReturned rest
  end.

(** The world [sealBlock] entered at [w] has reached when [getPayload]
    has returned: after the pool sync, the draw of entropy, the proposal
    and [getPayload].  The finality step reads the chain there. *)
Definition worldAfterGetPayload {W : Type} (B : Backend W) (w : W)
  (state : ForkchoiceStateV1) (attrs : PayloadAttributes)
  (version : PayloadVersion) (id : PayloadID) : W :=
  snd (getPayload B
         (snd (forkchoiceUpdated B (snd (randRead B (snd (TxPoolSync B w))))
                 state (Some attrs) version false))
         id true).

(** The state the resync guard of [sealBlock] leaves: the cached one
    when its head is the live head, else the one rebuilt from the live
    head and its finalized ancestor. *)
Definition resyncedState {W : Type} (B : Backend W) (c : SimulatedBeacon) (w : W)
  : option ForkchoiceStateV1 :=
  match CurrentBlock B w with
  | None => None
  | Some header =>
      if HeadBlockHash (curForkchoiceState c) =? HeaderHash header
      then Some (curForkchoiceState c)
      else
        match GetBlockByNumber B w (finalizedNumber (Uint64 (HeaderNumber header))) with
        | None => None
        | Some b =>
            Some (mkForkchoiceState (HeaderHash header) (HeaderHash header)
                    (Block_Hash b))
        end
  end.

(** ** Drivers that can exist *)

(** The drivers a process can hold: the one [NewSimulatedBeacon]
    returns, and what each method, and each [setCurrentState] inside
    them, leaves. *)
Inductive Held {W : Type} (B : Backend W) : SimulatedBeacon -> Prop :=
| Held_new period feeRecipient w c :
    outcome (NewSimulatedBeacon B period feeRecipient tt w) = Done c ->
    Held B c
| Held_setCurrentState c headHash finalizedHash (w : W) :
    Held B c ->
    Held B (driverAfter (setCurrentState headHash finalizedHash c w))
| Held_sealBlock c withdrawals timestamp w :
    Held B c ->
    Held B (driverAfter (sealBlock B withdrawals timestamp c w))
| Held_Commit c w :
    Held B c ->
    Held B (driverAfter (Commit B c w))
| Held_Fork c parentHash w :
    Held B c ->
    Held B (driverAfter (Fork B parentHash c w))
| Held_AdjustTime c adjustment w :
    Held B c ->
    Held B (driverAfter (AdjustTime B adjustment c w))
| Held_Rollback c w :
    Held B c ->
    Held B (driverAfter (Rollback B c w))
| Held_addWithdrawal c withdrawal (w : W) :
    Held B c ->
    Held B (driverAfter (addWithdrawal withdrawal c w))
| Held_setFeeRecipient c a (w : W) :
    Held B c ->
    Held B (driverAfter (setFeeRecipient a c w)).

(** ** A small engine to run the driver on

    An instance of [Backend] for concrete runs.  It is a stand-in with a
    few switches, not the engine of the repository. *)

Module Sim.

(** The world of a development chain: its canonical blocks, its head,
    the pool, the payload under construction, and the answers an
    operator can force (a failing pool sync, a forced answer to a
    proposal, which builds nothing, a failing canonicalization). *)
Record World : Type := mkWorld {
  wCanonical : list Block;
  wHead : option Header;
  wPending : list Address;
  wSyncError : option Error;
  wProposeAnswer : option (Error + ForkChoiceResponse);
  wCanonicalizeError : option Error;
  wSetCanonicalError : option Error;
  wBuilding : option ExecutableData;
  wClock : Z
}.

Definition blockByNumber (w : World) (n : Z) : option Block :=
  find (fun b => HeaderNumber (BlockHeader b) =? n) (wCanonical w).

Definition blockByHash (w : World) (h : Hash) : option Block :=
  find (fun b => Block_Hash b =? h) (wCanonical w).

Definition withHead (w : World) (h : option Header) : World :=
  mkWorld (wCanonical w) h (wPending w) (wSyncError w) (wProposeAnswer w)
    (wCanonicalizeError w) (wSetCanonicalError w) (wBuilding w) (wClock w).

Definition withBuilding (w : World) (p : option ExecutableData) : World :=
  mkWorld (wCanonical w) (wHead w) (wPending w) (wSyncError w) (wProposeAnswer w)
    (wCanonicalizeError w) (wSetCanonicalError w) p (wClock w).

Definition withBlock (w : World) (b : Block) : World :=
  mkWorld (wCanonical w ++ [b]) (wHead w) (wPending w) (wSyncError w)
    (wProposeAnswer w) (wCanonicalizeError w) (wSetCanonicalError w)
    (wBuilding w) (wClock w).

Definition withPending (w : World) (p : list Address) : World :=
  mkWorld (wCanonical w) (wHead w) p (wSyncError w) (wProposeAnswer w)
    (wCanonicalizeError w) (wSetCanonicalError w) (wBuilding w) (wClock w).

Definition validStatus : PayloadStatusV1 := mkPayloadStatus None VALID None None.

(** The hash this engine gives the block of height [n]. *)
Definition hashOf (n : Z) : Hash := 1000 + n.

Definition propose (w : World) (attrs : PayloadAttributes)
  : (Error + ForkChoiceResponse) * World :=
  match wProposeAnswer w with
  | Some r => (r, withBuilding w None)
  | None =>
      let n := match wHead w with
               | Some h => HeaderNumber h + 1
               | None => 0
               end in
      (inr (mkForkChoiceResponse validStatus (Some 1)),
       withBuilding w (Some (mkExecutableData n (hashOf n) (Timestamp attrs))))
  end.

Definition canonicalize (w : World) (state : ForkchoiceStateV1)
  : (Error + ForkChoiceResponse) * World :=
  match wCanonicalizeError w with
  | Some err => (inl err, w)
  | None =>
      (inr (mkForkChoiceResponse validStatus None),
       match blockByHash w (HeadBlockHash state) with
       | Some b => withHead w (Some (BlockHeader b))
       | None => w
       end)
  end.

Definition engine : Backend World :=
  mkBackend World
    wHead
    blockByNumber
    blockByHash
    (fun w b =>
       match wSetCanonicalError w with
       | Some err => (Some err, w)
       | None => (None, withHead w (Some (BlockHeader b)))
       end)
    (fun _ => forks.Cancun)
    (fun w => (wSyncError w, w))
    wPending
    (fun w => withPending w [])
    (fun w state attrs _ _ =>
       match attrs with
       | Some attrs => propose w attrs
       | None => canonicalize w state
       end)
    (fun w _ _ =>
       match wBuilding w with
       | Some p => (inr (mkEnvelope p None None), w)
       | None => (inl "unknown payload"%string, w)
       end)
    (fun w p _ _ _ _ =>
       (inr validStatus,
        withBlock w (mkBlock (mkHeader (BlockHash p) (Number p) (PayloadTimestamp p)))))
    (fun w => (7, w))
    wClock
    (fun _ => 1).

Definition genesis : Block := mkBlock (mkHeader (hashOf 0) 0 100).

(** A chain that holds its genesis block only. *)
Definition atGenesis : World :=
  mkWorld [genesis] (Some (BlockHeader genesis)) [] None None None None None 200.

(** The driver built on [atGenesis]. *)
Definition driver0 : SimulatedBeacon :=
  mkSimulatedBeacon 0 emptyQueue 9
    (mkForkchoiceState (hashOf 0) (hashOf 0) (hashOf 0)) 100.

Definition w1 : Withdrawal := mkWithdrawal 1 11 21 31.
Definition w2 : Withdrawal := mkWithdrawal 2 12 22 32.
Definition w3 : Withdrawal := mkWithdrawal 3 13 23 33.

(** The pool sync fails. *)
Definition syncFails (w : World) : World :=
  mkWorld (wCanonical w) (wHead w) (wPending w) (Some "pool stopped"%string)
    (wProposeAnswer w) (wCanonicalizeError w) (wSetCanonicalError w)
    (wBuilding w) (wClock w).

(** The engine answers the proposal with [r]. *)
Definition proposeAnswers (w : World) (r : Error + ForkChoiceResponse) : World :=
  mkWorld (wCanonical w) (wHead w) (wPending w) (wSyncError w) (Some r)
    (wCanonicalizeError w) (wSetCanonicalError w) (wBuilding w) (wClock w).

(** The canonicalizing [forkchoiceUpdated] fails. *)
Definition canonicalizeFails (w : World) : World :=
  mkWorld (wCanonical w) (wHead w) (wPending w) (wSyncError w) (wProposeAnswer w)
    (Some "engine stopped"%string) (wSetCanonicalError w) (wBuilding w) (wClock w).

(** [SetCanonical] fails. *)
Definition setCanonicalFails (w : World) : World :=
  mkWorld (wCanonical w) (wHead w) (wPending w) (wSyncError w) (wProposeAnswer w)
    (wCanonicalizeError w) (Some "chain stopped"%string) (wBuilding w) (wClock w).

(** The chain was rewound to a block of height 40 whose epoch ancestor,
    block 32, is kept ([rewound]) or was dropped by a second rewind that
    raced the first read ([rewoundTwice]). *)
Definition block32 : Block := mkBlock (mkHeader (hashOf 32) 32 132).
Definition block40 : Block := mkBlock (mkHeader (hashOf 40) 40 140).

Definition rewound : World :=
  mkWorld [genesis; block32; block40] (Some (BlockHeader block40)) [] None None
    None None None 200.

Definition rewoundTwice : World :=
  mkWorld [genesis] (Some (BlockHeader block40)) [] None None None None None 200.

(** The head is block 40 and block 32 is gone when the finality step
    looks for it. *)
Definition epochDropped : World :=
  mkWorld [genesis; block40] (Some (BlockHeader block40)) [] None None None None
    None 200.

(** The driver whose cached head is block 40. *)
Definition driver40 : SimulatedBeacon :=
  mkSimulatedBeacon 0 emptyQueue 9
    (mkForkchoiceState (hashOf 40) (hashOf 40) (hashOf 32)) 140.

(** The driver had sealed block 45 before the rewind. *)
Definition driver45 : SimulatedBeacon :=
  mkSimulatedBeacon 0 emptyQueue 9
    (mkForkchoiceState (hashOf 45) (hashOf 45) (hashOf 32)) 145.

End Sim.

(** ** Invariants of the receiver *)

(** A method keeps a property of the receiver, however it ends. *)
Definition preserves {D W A : Type} (P : D -> Prop) (m : M D W A) : Prop :=
  forall d w, P d -> P (driverAfter (m d w)).

(** The driver does not tell the safe block from the head. *)
Definition safeIsHead (c : SimulatedBeacon) : Prop :=
  SafeBlockHash (curForkchoiceState c) = HeadBlockHash (curForkchoiceState c).

(** ** The scheduler *)

(** Conversion to a signed 64-bit value, and the wrap-around of [int64]
    arithmetic ([time.Duration] is an [int64]). *)
Definition wrapInt64 (z : Z) : Z := (z + 2 ^ 63) mod 2 ^ 64 - 2 ^ 63.

Section Scheduler.

Context {W : Type} (B : Backend W).

(** [Start] always returns a nil error; the result here is whether it
    launched [loop]. *)
Definition Start : M SimulatedBeacon W bool :=
  c <- getDriver ;;
  if period c =? 0 then ret false else ret true.

(** The [timer.C] case of [loop]: one seal attempt.  The result is the
    duration [time.Second * time.Duration(c.period)] the timer is reset
    with, [None] when the attempt failed and the timer is left alone. *)
Definition loopTimerCase : M SimulatedBeacon W (option Z) :=
  withdrawals <- popWithdrawals 10 ;;
  now <- read (timeNowUnix B) ;;
  err <- logged (sealBlock B withdrawals (uint64_of_int64 now)) ;;
  match err with
  | Some _ => ret None
  | None =>
      c <- getDriver ;;
      ret (Some (wrapInt64 (Second * wrapInt64 (period c))))
  end.

End Scheduler.

(** ** Further readings of a trace *)

Inductive CallKind : Type :=
| KTxPoolSync
| KForkchoiceUpdated
| KGetPayload
| KNewPayload
| KSetCanonical
| KTxPoolClear.

Definition kindOf (e : Event) : CallKind :=
  match e with
  | EvTxPoolSync _ => KTxPoolSync
  | EvForkchoiceUpdated _ _ _ _ => KForkchoiceUpdated
  | EvGetPayload _ _ _ => KGetPayload
  | EvNewPayload _ _ _ _ _ => KNewPayload
  | EvSetCanonical _ _ => KSetCanonical
  | EvTxPoolClear => KTxPoolClear
  end.

(** The calls of a complete seal cycle, in order. *)
Definition sealOrder : list CallKind :=
  [KTxPoolSync; KForkchoiceUpdated; KGetPayload; KNewPayload; KForkchoiceUpdated].

(** The state and the version of the first [forkchoiceUpdated]. *)
Fixpoint firstState (t : list Event) : option ForkchoiceStateV1 :=
  match t with
  | [] => None
  | EvForkchoiceUpdated state _ _ _ :: _ => Some state
  | _ :: rest => firstState rest
  end.

Fixpoint firstVersion (t : list Event) : option PayloadVersion :=
  match t with
  | [] => None
  | EvForkchoiceUpdated _ _ version _ :: _ => Some version
  | _ :: rest => firstVersion rest
  end.

(** The envelope a [getPayload] of the trace returned. *)
Fixpoint fetchedEnvelope (t : list Event) : option ExecutionPayloadEnvelope :=
  match t with
  | [] => None
  | EvGetPayload _ _ (inr envelope) :: _ => Some envelope
  | _ :: rest => fetchedEnvelope rest
  end.

(** The arguments of the [newPayload] of a trace. *)
Fixpoint newPayloadArguments (t : list Event)
  : option (ExecutableData * option (list Hash) * option Hash
            * option (list (list byte))) :=
  match t with
  | [] => None
  | EvNewPayload payload blobHashes beaconRoot requests _ :: _ =>
      Some (payload, blobHashes, beaconRoot, requests)
  | _ :: rest => newPayloadArguments rest
  end.

(** What the post-Shanghai branch of [sealBlock] hands to [newPayload]
    for an envelope whose commitments all have the right length. *)
Definition blobHashesOf {W : Type} (B : Backend W)
  (envelope : ExecutionPayloadEnvelope) : list Hash :=
  match BlobsBundle envelope with
  | Some bundle => map (CalcBlobHashV1 B) (Commitments bundle)
  | None => []
  end.

Definition wellFormed (commit : list byte) : bool :=
  Nat.eqb (length commit) CommitmentLength.

(** The period is within what [time.Duration] can hold in seconds. *)
Definition periodClamped (c : SimulatedBeacon) : Prop := period c <= maxPeriod.

(** ** The small engine, with blobs *)

Module SimBlobs.

(** [Sim.engine] with a blob bundle and requests attached to every
    envelope it hands out. *)
Definition engine (bundle : BlobsBundleV1) (requests : option (list (list byte)))
  : Backend Sim.World :=
  mkBackend Sim.World
    (CurrentBlock Sim.engine)
    (GetBlockByNumber Sim.engine)
    (GetBlockByHash Sim.engine)
    (SetCanonical Sim.engine)
    (LatestFork Sim.engine)
    (TxPoolSync Sim.engine)
    (TxPoolPending Sim.engine)
    (TxPoolClear Sim.engine)
    (forkchoiceUpdated Sim.engine)
    (fun w id full =>
       match getPayload Sim.engine w id full with
       | (inr envelope, w') =>
           (inr (mkEnvelope (ExecutionPayload envelope) (Some bundle) requests), w')
       | (inl err, w') => (inl err, w')
       end)
    (newPayload Sim.engine)
    (randRead Sim.engine)
    (timeNowUnix Sim.engine)
    (CalcBlobHashV1 Sim.engine).

Definition commitment48 : list byte := repeat x00 48.
Definition commitment47 : list byte := repeat x00 47.

End SimBlobs.

(** * Properties *)

(** ** The finality rule *)

Lemma wrap64_small (z : Z) : is_uint64 z -> wrap64 z = z.
Proof. unfold is_uint64, wrap64. intros H. apply Z.mod_small. exact H. Qed.

Lemma pred_div_epoch (number : Z) :
  number mod 32 <> 0 -> (number - 1) / 32 = number / 32.
Proof.
  intros E.
  pose proof (Z.div_mod number 32 ltac:(lia)).
  pose proof (Z.mod_pos_bound number 32 ltac:(lia)).
  symmetry. apply Z.div_unique with (r := number mod 32 - 1); lia.
Qed.

(** On [uint64] the two branches of [finalizedNumber] agree with rounding
    down to the epoch, and no step wraps. *)
Lemma finalizedNumber_round (number : Z) :
  is_uint64 number ->
  finalizedNumber number = devEpochLength * (number / devEpochLength).
Proof.
  intros H. unfold finalizedNumber, devEpochLength, is_uint64 in *.
  destruct (Z.eqb_spec (number mod 32) 0) as [E | E].
  - pose proof (Z.div_mod number 32 ltac:(lia)). lia.
  - assert (Hn : number <> 0) by (intros ->; apply E; reflexivity).
    rewrite (wrap64_small (number - 1)) by (unfold is_uint64; lia).
    rewrite (pred_div_epoch number E).
    pose proof (Z.div_mod number 32 ltac:(lia)). pose proof (Z.mod_pos_bound number 32 ltac:(lia)).
    rewrite wrap64_small by (unfold is_uint64; lia). lia.
Qed.

Lemma finalizedNumber_uint64 (number : Z) :
  is_uint64 number -> is_uint64 (finalizedNumber number).
Proof.
  intros H. rewrite finalizedNumber_round by exact H.
  unfold is_uint64, devEpochLength in *.
  pose proof (Z.div_mod number 32 ltac:(lia)). pose proof (Z.mod_pos_bound number 32 ltac:(lia)). lia.
Qed.

(** C5: on every block number, [finalizedBlockHash] computes the number
    itself when it is a multiple of 32 and floor((number-1)/32)*32
    otherwise, which is the greatest multiple of 32 that does not exceed
    the number. *)
Theorem finalizedNumber_greatest_epoch_multiple (number : Z) :
  is_uint64 number ->
  (number mod 32 = 0 -> finalizedNumber number = number) /\
  (number mod 32 <> 0 -> finalizedNumber number = (number - 1) / 32 * 32) /\
  finalizedNumber number mod 32 = 0 /\
  finalizedNumber number <= number /\
  (forall m, m mod 32 = 0 -> m <= number -> m <= finalizedNumber number).
Proof.
  intros H.
  pose proof (finalizedNumber_round number H) as R. unfold devEpochLength in R.
  pose proof (Z.div_mod number 32 ltac:(lia)). pose proof (Z.mod_pos_bound number 32 ltac:(lia)).
  repeat split.
  - intros E. lia.
  - intros E. rewrite R.
    rewrite (pred_div_epoch number E). lia.
  - rewrite R, Z.mul_comm. apply Z.mod_mul. lia.
  - lia.
  - intros m Hm Hle. rewrite R.
    pose proof (Z.div_mod m 32 ltac:(lia)).
    assert (m / 32 <= number / 32) by (apply Z.div_le_mono; lia). lia.
Qed.

Lemma finalizedNumber_greatest_epoch_multiple_witness :
  is_uint64 45 /\ finalizedNumber 45 = 32 /\ finalizedNumber 64 = 64.
Proof.
  split; [unfold is_uint64; lia |].
  split.
  - assert (H : is_uint64 45) by (unfold is_uint64; lia).
    destruct (finalizedNumber_greatest_epoch_multiple 45 H) as (_ & E & _).
    rewrite E; [reflexivity | discriminate].
  - assert (H : is_uint64 64) by (unfold is_uint64; lia).
    destruct (finalizedNumber_greatest_epoch_multiple 64 H) as (E & _).
    apply E. reflexivity.
Defined.

(** C6: the finalized number of k is at most k, is a multiple of 32, and
    finalizing it again changes nothing. *)
Theorem finalizedNumber_le_multiple_idempotent (k : Z) :
  is_uint64 k ->
  finalizedNumber k <= k /\
  finalizedNumber k mod 32 = 0 /\
  finalizedNumber (finalizedNumber k) = finalizedNumber k.
Proof.
  intros H.
  pose proof (finalizedNumber_round k H) as R. unfold devEpochLength in R.
  pose proof (Z.div_mod k 32 ltac:(lia)). pose proof (Z.mod_pos_bound k 32 ltac:(lia)).
  assert (M : finalizedNumber k mod 32 = 0)
    by (rewrite R, Z.mul_comm; apply Z.mod_mul; lia).
  repeat split.
  - lia.
  - exact M.
  - unfold finalizedNumber at 1. unfold devEpochLength. rewrite M. reflexivity.
Qed.

Lemma finalizedNumber_le_multiple_idempotent_witness :
  is_uint64 77 /\
  finalizedNumber 77 <= 77 /\
  finalizedNumber 77 mod 32 = 0 /\
  finalizedNumber (finalizedNumber 77) = finalizedNumber 77.
Proof.
  assert (H : is_uint64 77) by (unfold is_uint64; lia).
  split; [exact H | exact (finalizedNumber_le_multiple_idempotent 77 H)].
Defined.

(** ** The withdrawal queue *)

Lemma pop_spec (q : withdrawalQueue) (n : Z) :
  0 <= n ->
  let k := Z.to_nat (Z.min n (Z.of_nat (length (pending q)))) in
  pop q n = Some (firstn k (pending q), mkQueue (skipn k (pending q))).
Proof.
  intros H k. unfold pop.
  destruct (Z.ltb_spec (Z.min n (Z.of_nat (length (pending q)))) 0); [lia |].
  reflexivity.
Qed.

(** What was popped so far, then the queue, is what was added so far. *)
Lemma runQueue_conserves (ops : list QueueOp) :
  forall q q' outs,
    runQueue ops q = Some (q', outs) ->
    concat outs ++ pending q' = pending q ++ added ops.
Proof.
  induction ops as [| op ops IH]; intros q q' outs Hrun; simpl in Hrun.
  - inversion Hrun; subst. simpl. now rewrite app_nil_r.
  - destruct op as [w | n].
    + apply IH in Hrun. simpl in Hrun. simpl.
      rewrite Hrun, <- app_assoc. reflexivity.
    + destruct (pop q n) as [[popped q1] |] eqn:Hpop; [| discriminate].
      destruct (runQueue ops q1) as [[q2 outs2] |] eqn:Hrest; [| discriminate].
      inversion Hrun; subst. apply IH in Hrest.
      simpl. rewrite <- app_assoc, Hrest.
      unfold pop in Hpop.
      destruct (Z.min n (Z.of_nat (length (pending q))) <? 0); [discriminate |].
      inversion Hpop; subst. simpl.
      rewrite app_assoc, firstn_skipn. reflexivity.
Qed.

(** A history without a negative count runs to its end. *)
Lemma runQueue_total (ops : list QueueOp) :
  Forall nonNegative ops ->
  forall q, exists q' outs, runQueue ops q = Some (q', outs).
Proof.
  induction 1 as [| op ops Hop _ IH]; intros q; simpl.
  - eexists _, _. reflexivity.
  - destruct op as [w | n].
    + apply IH.
    + simpl in Hop. rewrite (pop_spec q n Hop).
      destruct (IH (mkQueue (skipn (Z.to_nat (Z.min n (Z.of_nat (length (pending q)))))
                               (pending q)))) as (q' & outs & E).
      rewrite E. eexists _, _. reflexivity.
Qed.

(** C7, as the code has it: a history of adds and pops without a
    negative count runs to its end, and after it [pop n], for a count
    n >= 0, returns the first min(n, length) queued withdrawals in
    arrival order and leaves the rest; it returns at most n and at most
    what is queued, and everything popped so far followed by what remains
    is everything added, in order. *)
Theorem pop_fifo_prefix (ops : list QueueOp) (n : Z) :
  Forall nonNegative ops ->
  0 <= n ->
  exists q outs popped q',
    runQueue ops emptyQueue = Some (q, outs) /\
    pop q n = Some (popped, q') /\
    popped = firstn (Z.to_nat (Z.min n (Z.of_nat (length (pending q))))) (pending q) /\
    pending q' = skipn (Z.to_nat (Z.min n (Z.of_nat (length (pending q))))) (pending q) /\
    Z.of_nat (length popped) = Z.min n (Z.of_nat (length (pending q))) /\
    Z.of_nat (length popped) <= n /\
    (length popped <= length (pending q))%nat /\
    popped ++ pending q' = pending q /\
    concat outs ++ popped ++ pending q' = added ops.
Proof.
  intros Hops Hn.
  destruct (runQueue_total ops Hops emptyQueue) as (q & outs & Hrun).
  set (k := Z.to_nat (Z.min n (Z.of_nat (length (pending q))))).
  exists q, outs, (firstn k (pending q)), (mkQueue (skipn k (pending q))).
  assert (Hk : (k <= length (pending q))%nat) by (unfold k; lia).
  assert (Hlen : length (firstn k (pending q)) = k)
    by (rewrite length_firstn; lia).
  split; [exact Hrun |].
  split; [apply pop_spec; exact Hn |].
  split; [reflexivity |].
  split; [reflexivity |].
  split; [rewrite Hlen; unfold k; lia |].
  split; [rewrite Hlen; unfold k; lia |].
  split; [rewrite Hlen; exact Hk |].
  split; [apply firstn_skipn |].
  simpl. rewrite firstn_skipn.
  apply runQueue_conserves in Hrun. exact Hrun.
Qed.

Lemma pop_fifo_prefix_witness :
  Forall nonNegative [OpAdd Sim.w1; OpAdd Sim.w2; OpPop 1; OpAdd Sim.w3] /\
  0 <= 10 /\
  exists popped q',
    pop (mkQueue [Sim.w2; Sim.w3]) 10 = Some (popped, q') /\
    popped = [Sim.w2; Sim.w3] /\
    pending q' = [] /\
    [Sim.w1] ++ popped ++ pending q' = [Sim.w1; Sim.w2; Sim.w3].
Proof.
  assert (Hops : Forall nonNegative
                   [OpAdd Sim.w1; OpAdd Sim.w2; OpPop 1; OpAdd Sim.w3])
    by (repeat constructor; simpl; lia).
  assert (Hn : 0 <= 10) by lia.
  split; [exact Hops |]. split; [exact Hn |].
  destruct (pop_fifo_prefix _ 10 Hops Hn)
    as (q & outs & popped & q' & Hrun & Hpop & Hfirst & Hrest & _ & _ & _ & _
        & Hall).
  injection Hrun as <- <-.
  exists popped, q'.
  split; [exact Hpop |].
  split; [rewrite Hfirst; reflexivity |].
  split; [rewrite Hrest; reflexivity |].
  exact Hall.
Defined.

(** C7 fails as stated on a negative count: [pop(-1)] on a queue of two
    slices [pending[0:-1]] and panics; it returns nothing. *)
Lemma pop_negative_count_panics :
  let q := add (add emptyQueue Sim.w1) Sim.w2 in
  Z.min (-1) (Z.of_nat (length (pending q))) = -1 /\
  pop q (-1) = None /\
  runQueue [OpAdd Sim.w1; OpAdd Sim.w2; OpPop (-1)] emptyQueue = None.
Proof. cbv zeta. repeat split. Qed.

(** ** The seal cycle *)

Arguments String.append : simpl never.

(** Case analysis along the control flow of a method: each step splits
    on the innermost value the code branches on. *)
Ltac case_step :=
  match goal with
  | |- context [match ?x with _ => _ end] =>
      lazymatch x with
      | context [match _ with _ => _ end] => fail
      | _ => destruct x eqn:?
      end
  end.

Ltac unfold_driver :=
  unfold sealBlock, bind, getDriver, read, deref, finalizedBlockHash,
    setCurrentState, setDriver, call, step, payloadVersion, ret, fail, crash.

Ltac seal_paths := unfold_driver; repeat (cbn; case_step); cbn.

(** Turn the recorded tests of a path into equations. *)
Ltac read_tests :=
  repeat match goal with
    | H : negb _ = true |- _ => apply negb_true_iff in H
    | H : negb _ = false |- _ => apply negb_false_iff in H
    | H : (_ && _)%bool = true |- _ =>
        let H' := fresh H in apply andb_prop in H; destruct H as [H H']
    | H : String.eqb _ _ = true |- _ => apply String.eqb_eq in H
    | H : String.eqb _ _ = false |- _ => apply String.eqb_neq in H
    | H : (_ =? _) = true |- _ => apply Z.eqb_eq in H
    | H : (_ =? _) = false |- _ => apply Z.eqb_neq in H
    | H : (_ <=? _) = true |- _ => apply Z.leb_le in H
    | H : (_ <=? _) = false |- _ => apply Z.leb_gt in H
    end.

Lemma is_STATUS_SYNCING_status (r : ForkChoiceResponse) :
  is_STATUS_SYNCING r = true ->
  Status (PayloadStatus r) = SYNCING /\ ResponsePayloadID r = None.
Proof.
  unfold is_STATUS_SYNCING. intros H.
  repeat (apply andb_prop in H; destruct H as [H ?]).
  split.
  - now apply String.eqb_eq.
  - destruct (ResponsePayloadID r); [discriminate | reflexivity].
Qed.

Section SealBlock.

Context {W : Type} (B : Backend W).

(** C3: when the first [forkchoiceUpdated] of a seal cycle answers
    without error, with status VALID and no payload ID, [sealBlock]
    returns nil at once: the pool sync and that call are all it issued
    (no [getPayload], no [newPayload], no second [forkchoiceUpdated]) and
    [lastBlockTime] is unchanged. *)
Theorem sealBlock_known_payload_is_noop ws ts c w response :
  let r := sealBlock B ws ts c w in
  firstForkchoiceUpdated (trace r) = Some (inr response) ->
  Status (PayloadStatus response) = VALID ->
  ResponsePayloadID response = None ->
  outcome r = Done tt /\
  (exists state attrs version,
     trace r = [EvTxPoolSync None;
                EvForkchoiceUpdated state attrs version (inr response)]) /\
  existsb isGetPayload (trace r) = false /\
  existsb isNewPayload (trace r) = false /\
  length (filter isForkchoiceUpdated (trace r)) = 1%nat /\
  lastBlockTime (driverAfter r) = lastBlockTime c.
Proof.
  intros r. subst r. seal_paths.
  all: intros Hf Hs Hid; try discriminate Hf.
  all: injection Hf as ->.
  all: try (rewrite Hs, Hid in *; discriminate).
  all: try match goal with
         | H : is_STATUS_SYNCING _ = true |- _ =>
             apply is_STATUS_SYNCING_status in H; destruct H as [H _];
             rewrite Hs in H; discriminate H
         end.
  all: repeat split; eauto.
Qed.

(** C10: when the first [forkchoiceUpdated] answers without error, with
    a response that is not [STATUS_SYNCING] and carries no payload ID,
    [sealBlock] panics on the nil payload ID exactly when the status is
    not VALID; it returns no error there and never reaches [getPayload]. *)
Theorem sealBlock_nil_payload_id_panics ws ts c w response :
  let r := sealBlock B ws ts c w in
  firstForkchoiceUpdated (trace r) = Some (inr response) ->
  is_STATUS_SYNCING response = false ->
  ResponsePayloadID response = None ->
  (Status (PayloadStatus response) <> VALID ->
   outcome r = Crashed nilDereference) /\
  (outcome r = Crashed nilDereference <->
   Status (PayloadStatus response) <> VALID) /\
  (forall err, outcome r <> Failed err) /\
  existsb isGetPayload (trace r) = false.
Proof.
  intros r. subst r. seal_paths.
  all: intros Hf Hs Hid; try discriminate Hf.
  all: injection Hf as ->.
  all: try congruence.
  all: repeat match goal with
         | H : context [is_nil (ResponsePayloadID _)] |- _ => rewrite Hid in H
         | H : context [is_nil _] |- _ => progress cbn in H
         | H : context [(_ && true)%bool] |- _ => rewrite andb_true_r in H
         end.
  all: read_tests.
  all: repeat split; try discriminate; try congruence.
Qed.

(** C1, as the code has it: when [sealBlock] returns an error and no
    [newPayload] has returned without error, the ForkchoiceState is what
    the resync guard left, which is the prior state when the cached head
    is the live head.  When a [newPayload] has returned without error
    (whatever status it answered), the error is the answer of the second
    [forkchoiceUpdated] and the state is already that of the new block:
    head and safe are its hash, finalized is its hash on an epoch
    boundary and otherwise the hash of the block the chain held at the
    finalized number when read after [getPayload]. *)
Theorem sealBlock_error_forkchoice_state ws ts c w err :
  let r := sealBlock B ws ts c w in
  outcome r = Failed err ->
  match newPayloadReturned (trace r) with
  | None =>
      resyncedState B c w = Some (curForkchoiceState (driverAfter r)) /\
      (forall header,
         CurrentBlock B w = Some header ->
         HeadBlockHash (curForkchoiceState c) = HeaderHash header ->
         curForkchoiceState (driverAfter r) = curForkchoiceState c)
  | Some payload =>
      HeadBlockHash (curForkchoiceState (driverAfter r)) = BlockHash payload /\
      SafeBlockHash (curForkchoiceState (driverAfter r)) = BlockHash payload /\
      (Number payload mod devEpochLength = 0 ->
       FinalizedBlockHash (curForkchoiceState (driverAfter r)) = BlockHash payload) /\
      (Number payload mod devEpochLength <> 0 ->
       exists state attrs version id envelope b,
         firstState (trace r) = Some state /\
         firstAttributes (trace r) = Some attrs /\
         firstVersion (trace r) = Some version /\
         In (EvGetPayload id true (inr envelope)) (trace r) /\
         ExecutionPayload envelope = payload /\
         GetBlockByNumber B (worldAfterGetPayload B w state attrs version id)
           (finalizedNumber (Number payload)) = Some b /\
         FinalizedBlockHash (curForkchoiceState (driverAfter r)) = Block_Hash b) /\
      exists version,
        last (trace r) EvTxPoolClear =
        EvForkchoiceUpdated (curForkchoiceState (driverAfter r)) None version
          (inl err)
  end.
Proof.
  intros r. subst r. seal_paths.
  all: intros Hf; try discriminate Hf.
  all: try (injection Hf as ->).
  all: read_tests.
  all: unfold resyncedState.
  all: repeat match goal with
         | H : ?x = _ |- context [?x] => rewrite H
         end.
  all: try rewrite Z.eqb_refl.
  all: repeat match goal with
         | H : ?a <> ?b |- context [?a =? ?b] =>
             rewrite (proj2 (Z.eqb_neq a b) H)
         end.
  all: try (split; [reflexivity | intros ? [= <-] ?; congruence]).
  all: split; [reflexivity |].
  all: split; [reflexivity |].
  all: split; [intros; try reflexivity; congruence |].
  all: split; [| eexists; reflexivity].
  all: intros Hne; try congruence.
  all: eexists _, _, _, _, _, _.
  all: split; [reflexivity |].
  all: split; [reflexivity |].
  all: split; [reflexivity |].
  all: split; [cbn; right; right; left; reflexivity |].
  all: split; [reflexivity |].
  all: split; [unfold worldAfterGetPayload; eassumption | reflexivity].
Qed.

(** The resync guard dereferences the result of [finalizedBlockHash]
    without a nil test: when the cached head is not the live head and
    the chain has no block at the finalized number, the call panics
    before it issued anything. *)
Lemma resync_guard_nil_panics ws ts c w header :
  CurrentBlock B w = Some header ->
  HeadBlockHash (curForkchoiceState c) <> HeaderHash header ->
  GetBlockByNumber B w (finalizedNumber (Uint64 (HeaderNumber header))) = None ->
  sealBlock B ws ts c w = mkRun (Crashed nilDereference) c w [].
Proof.
  intros Hhead Hne Hnone. unfold_driver. cbn.
  rewrite Hhead. cbn.
  rewrite (proj2 (Z.eqb_neq _ _) Hne). cbn.
  rewrite Hnone. reflexivity.
Qed.

(** The timestamp carried by the first [forkchoiceUpdated] of a seal
    cycle, with the wrap-around of [uint64]. *)
Lemma sealBlock_build_timestamp ws ts c w attrs :
  firstAttributes (trace (sealBlock B ws ts c w)) = Some attrs ->
  Timestamp attrs =
    if ts <=? lastBlockTime c then wrap64 (lastBlockTime c + 1) else ts.
Proof.
  seal_paths.
  all: intros Hf; try discriminate Hf.
  all: injection Hf as <-; reflexivity.
Qed.

(** One seal cycle moves [lastBlockTime] only when it produced a block,
    and then forward, to the timestamp of that block. *)
Lemma sealBlock_lastBlockTime ws ts c w :
  buildsWithAttributes B ->
  0 <= lastBlockTime c < MaxUint64 ->
  let r := sealBlock B ws ts c w in
  match sealedTimestamp r with
  | Some t => lastBlockTime c < t /\ lastBlockTime (driverAfter r) = t
  | None => lastBlockTime (driverAfter r) = lastBlockTime c
  end.
Proof.
  intros HB Hrange r. subst r. unfold sealedTimestamp. seal_paths.
  all: try reflexivity.
  all: match goal with
       | H1 : fst (forkchoiceUpdated B _ _ (Some _) _ false) = inr ?resp,
         H2 : ResponsePayloadID ?resp = Some ?id,
         H3 : fst (getPayload B _ ?id true) = inr _ |- _ =>
           pose proof (HB _ _ _ _ _ _ _ H1 H2 H3) as HT; cbn in HT
       end.
  all: read_tests.
  all: split; [| reflexivity].
  all: rewrite HT.
  all: unfold wrap64, MaxUint64 in *.
  all: try (rewrite Z.mod_small; lia).
  all: lia.
Qed.

(** C4, as the code has it: the build timestamp is
    (lastBlockTime + 1) mod 2^64 when the requested timestamp does not
    exceed [lastBlockTime], and the requested timestamp otherwise; when
    every call is entered with [lastBlockTime] below 2^64 - 1 the first
    is [lastBlockTime + 1], and when moreover the engine builds with the
    timestamp it was given, the timestamps of the blocks produced by
    successive calls are strictly increasing and above the initial
    [lastBlockTime]. *)
Theorem sealBlock_timestamps_increase c requests :
  (forall ws ts w attrs,
     firstAttributes (trace (sealBlock B ws ts c w)) = Some attrs ->
     Timestamp attrs =
       if ts <=? lastBlockTime c then (lastBlockTime c + 1) mod 2 ^ 64 else ts) /\
  (forall ws ts w attrs,
     0 <= lastBlockTime c < MaxUint64 ->
     firstAttributes (trace (sealBlock B ws ts c w)) = Some attrs ->
     lastBlockTime c < Timestamp attrs /\
     Timestamp attrs = if ts <=? lastBlockTime c then lastBlockTime c + 1 else ts) /\
  (buildsWithAttributes B ->
   belowMaxUint64 B c requests ->
   Forall (fun t => lastBlockTime c < t) (sealBlocks B c requests) /\
   StronglySorted Z.lt (sealBlocks B c requests)).
Proof.
  split; [intros ws ts w attrs Hf; exact (sealBlock_build_timestamp ws ts c w attrs Hf) |].
  split.
  { intros ws ts w attrs Hrange Hf.
    apply (sealBlock_build_timestamp ws ts c w) in Hf. rewrite Hf.
    unfold wrap64, MaxUint64 in *.
    destruct (Z.leb_spec ts (lastBlockTime c)).
    - rewrite Z.mod_small by lia. lia.
    - lia. }
  intros HB. revert c.
  induction requests as [| q rest IH]; intros c Hbelow; simpl.
  - split; constructor.
  - destruct Hbelow as [Hrange Hrest].
    pose proof (sealBlock_lastBlockTime (requestWithdrawals q)
                  (requestTimestamp q) c (requestWorld q) HB Hrange) as Hstep.
    cbv zeta in Hstep.
    specialize (IH _ Hrest). destruct IH as [IHall IHsorted].
    set (r := sealBlock B (requestWithdrawals q) (requestTimestamp q) c
                (requestWorld q)) in *.
    assert (Hgoal :
      Forall (fun t => lastBlockTime c < t)
        match sealedTimestamp r with
        | Some t => t :: sealBlocks B (driverAfter r) rest
        | None => sealBlocks B (driverAfter r) rest
        end /\
      StronglySorted Z.lt
        match sealedTimestamp r with
        | Some t => t :: sealBlocks B (driverAfter r) rest
        | None => sealBlocks B (driverAfter r) rest
        end).
    { destruct (sealedTimestamp r) as [t |].
      - destruct Hstep as [Hlt Hlast]. rewrite Hlast in IHall.
        split.
        + constructor; [exact Hlt |].
          eapply Forall_impl; [| exact IHall]. cbv beta. intros; lia.
        + constructor; [exact IHsorted | exact IHall].
      - rewrite Hstep in IHall. split; assumption. }
    destruct (outcome r); [exact Hgoal | exact Hgoal | split; constructor].
Qed.

End SealBlock.

(** ** Properties kept by every method *)

Section Preserves.
Context {D W : Type} (P : D -> Prop).

Lemma preserves_bind {A A'} (m : M D W A) (f : A -> M D W A') :
  preserves P m -> (forall a, preserves P (f a)) -> preserves P (bind m f).
Proof.
  intros Hm Hf d w Hd. unfold bind.
  specialize (Hm d w Hd).
  destruct (m d w) as [[a | err | msg] d1 w1 t1]; cbn in *; try assumption.
  specialize (Hf a d1 w1 Hm).
  destruct (f a d1 w1); cbn in *; assumption.
Qed.

Lemma preserves_getDriver_bind {A} (f : D -> M D W A) :
  (forall c, P c -> preserves P (f c)) -> preserves P (bind getDriver f).
Proof.
  intros Hf d w Hd. unfold bind, getDriver.
  specialize (Hf d Hd d w Hd).
  destruct (f d d w); cbn in *; assumption.
Qed.

Lemma preserves_ret {A} (a : A) : preserves P (@ret D W A a).
Proof. intros d w Hd. exact Hd. Qed.

Lemma preserves_fail {A} err : preserves P (@fail D W A err).
Proof. intros d w Hd. exact Hd. Qed.

Lemma preserves_crash {A} msg : preserves P (@crash D W A msg).
Proof. intros d w Hd. exact Hd. Qed.

Lemma preserves_read {A} (f : W -> A) : preserves P (@read D W A f).
Proof. intros d w Hd. exact Hd. Qed.

Lemma preserves_step {A} (f : W -> A * W) : preserves P (@step D W A f).
Proof. intros d w Hd. exact Hd. Qed.

Lemma preserves_call {A} (f : W -> A * W) ev : preserves P (@call D W A f ev).
Proof. intros d w Hd. exact Hd. Qed.

Lemma preserves_deref {A} (p : option A) : preserves P (@deref D W A p).
Proof. destruct p; intros d w Hd; exact Hd. Qed.

Lemma preserves_setDriver (d' : D) : P d' -> preserves P (@setDriver D W d').
Proof. intros H d w _. exact H. Qed.

Lemma preserves_logged (m : M D W unit) :
  preserves P m -> preserves P (logged m).
Proof.
  intros Hm d w Hd. unfold logged. specialize (Hm d w Hd).
  destruct (m d w) as [[a | err | msg] d1 w1 t1]; cbn in *; assumption.
Qed.

End Preserves.

Ltac preserve_step :=
  first
    [ apply preserves_getDriver_bind; intros ? ?
    | apply preserves_bind; [| intros ?]
    | apply preserves_ret
    | apply preserves_fail
    | apply preserves_crash
    | apply preserves_read
    | apply preserves_step
    | apply preserves_call
    | apply preserves_deref
    | apply preserves_logged
    | apply preserves_setDriver
    | match goal with
      | |- preserves _ (match ?x with _ => _ end) => destruct x
      end ].

Ltac preserve := repeat preserve_step.

Section Methods.
Context {W : Type} (B : Backend W).

Lemma setCurrentState_safeIsHead headHash finalizedHash :
  preserves safeIsHead (@setCurrentState W headHash finalizedHash).
Proof. unfold setCurrentState. preserve. reflexivity. Qed.

Lemma payloadVersion_preserves {D} (P : D -> Prop) time :
  preserves P (@payloadVersion W B D time).
Proof. unfold payloadVersion. preserve. Qed.

Lemma finalizedBlockHash_preserves (P : SimulatedBeacon -> Prop) n :
  preserves P (finalizedBlockHash B n).
Proof. unfold finalizedBlockHash. preserve. Qed.

Ltac preserve_driver :=
  repeat first
    [ apply payloadVersion_preserves
    | apply finalizedBlockHash_preserves
    | preserve_step ];
  try reflexivity; try assumption.

Lemma sealBlock_safeIsHead ws ts : preserves safeIsHead (sealBlock B ws ts).
Proof. unfold sealBlock. preserve_driver. Qed.

Lemma popWithdrawals_safeIsHead count :
  preserves safeIsHead (@popWithdrawals W count).
Proof. unfold popWithdrawals. preserve_driver. Qed.

Lemma Commit_safeIsHead : preserves safeIsHead (Commit B).
Proof.
  unfold Commit.
  repeat first
    [ apply sealBlock_safeIsHead
    | apply popWithdrawals_safeIsHead
    | preserve_step ].
Qed.

Lemma Fork_safeIsHead parentHash : preserves safeIsHead (Fork B parentHash).
Proof. unfold Fork. preserve_driver. Qed.

Lemma AdjustTime_safeIsHead adjustment :
  preserves safeIsHead (AdjustTime B adjustment).
Proof.
  unfold AdjustTime.
  repeat first
    [ apply sealBlock_safeIsHead
    | apply popWithdrawals_safeIsHead
    | preserve_step ].
Qed.

Lemma NewSimulatedBeacon_safeIsHead period feeRecipient w c :
  outcome (NewSimulatedBeacon B period feeRecipient tt w) = Done c ->
  safeIsHead c.
Proof.
  unfold NewSimulatedBeacon, bind, read, deref, payloadVersion, call, ret, fail,
    crash.
  repeat (cbn; case_step); cbn.
  all: intros H; try discriminate H.
  all: injection H as <-; reflexivity.
Qed.

(** C9: in every ForkchoiceState the driver holds, the one built from
    the chain head by [NewSimulatedBeacon] and every one installed by
    [setCurrentState], the safe hash is the head hash. *)
Theorem Held_safe_is_head c :
  Held B c ->
  SafeBlockHash (curForkchoiceState c) = HeadBlockHash (curForkchoiceState c).
Proof.
  intros H. change (safeIsHead c).
  induction H as [period feeRecipient w c Hnew
                 | c headHash finalizedHash w _ IH
                 | c ws ts w _ IH
                 | c w _ IH
                 | c parentHash w _ IH
                 | c adjustment w _ IH
                 | c w _ IH
                 | c withdrawal w _ IH
                 | c a w _ IH].
  - exact (NewSimulatedBeacon_safeIsHead _ _ _ _ Hnew).
  - exact (setCurrentState_safeIsHead _ _ _ _ IH).
  - exact (sealBlock_safeIsHead _ _ _ _ IH).
  - exact (Commit_safeIsHead _ _ IH).
  - exact (Fork_safeIsHead _ _ _ IH).
  - exact (AdjustTime_safeIsHead _ _ _ IH).
  - exact IH.
  - exact IH.
  - exact IH.
Qed.

Lemma pop10 (q : withdrawalQueue) :
  exists popped q', pop q 10 = Some (popped, q').
Proof.
  eexists _, _. apply pop_spec. lia.
Qed.

(** C8, as the code has it: with a pending transaction in the pool,
    [Fork] and [AdjustTime] return an error, leave the driver as it was
    and issue no call that can change the chain ([Fork] has only synced
    the pool).  With an empty pool, [Fork] fails with "parent not found"
    on an unknown hash, and otherwise calls [SetCanonical] on the block
    and succeeds exactly when that call does; [AdjustTime] pops up to
    ten withdrawals and runs [sealBlock] with the requested timestamp
    head time + (adjustment / second, truncated), modulo 2^64, so the
    build timestamp is that one only when it exceeds [lastBlockTime]. *)
Theorem Fork_AdjustTime_pool_gate parentHash adjustment c w :
  let w' := snd (TxPoolSync B w) in
  (TxPoolPending B w' <> [] ->
   Fork B parentHash c w =
     mkRun (Failed "pending block dirty") c w' [EvTxPoolSync (fst (TxPoolSync B w))] /\
   existsb mutatesChain (trace (Fork B parentHash c w)) = false) /\
  (TxPoolPending B w <> [] ->
   AdjustTime B adjustment c w =
     mkRun (Failed "could not adjust time on non-empty block") c w []) /\
  (TxPoolPending B w' = [] ->
   (GetBlockByHash B w' parentHash = None ->
    Fork B parentHash c w =
      mkRun (Failed "parent not found") c w' [EvTxPoolSync (fst (TxPoolSync B w))]) /\
   (forall parent,
      GetBlockByHash B w' parentHash = Some parent ->
      trace (Fork B parentHash c w) =
        [EvTxPoolSync (fst (TxPoolSync B w));
         EvSetCanonical parent (fst (SetCanonical B w' parent))] /\
      worldAfter (Fork B parentHash c w) = snd (SetCanonical B w' parent) /\
      (outcome (Fork B parentHash c w) = Done tt <->
       fst (SetCanonical B w' parent) = None))) /\
  (TxPoolPending B w = [] ->
   (CurrentBlock B w = None ->
    AdjustTime B adjustment c w = mkRun (Failed "parent not found") c w []) /\
   (forall parent,
      CurrentBlock B w = Some parent ->
      exists popped q,
        pop (withdrawals c) 10 = Some (popped, q) /\
        AdjustTime B adjustment c w =
          sealBlock B popped
            (wrap64 (HeaderTime parent + wrap64 (Z.quot adjustment Second)))
            (set_withdrawals c q) w /\
        forall attrs,
          firstAttributes (trace (AdjustTime B adjustment c w)) = Some attrs ->
          Timestamp attrs =
            if wrap64 (HeaderTime parent + wrap64 (Z.quot adjustment Second))
               <=? lastBlockTime c
            then wrap64 (lastBlockTime c + 1)
            else wrap64 (HeaderTime parent + wrap64 (Z.quot adjustment Second)))).
Proof.
  intros w'. subst w'.
  unfold Fork, AdjustTime, popWithdrawals, bind, call, read, getDriver, setDriver,
    ret, fail.
  cbn -[sealBlock].
  split; [| split; [| split]].
  - intros Hp.
    destruct (TxPoolPending B (snd (TxPoolSync B w))); [congruence |].
    split; reflexivity.
  - intros Hp. destruct (TxPoolPending B w); [congruence | reflexivity].
  - intros Hp. rewrite Hp. cbn. split.
    + intros Hnone. rewrite Hnone. reflexivity.
    + intros parent Hsome. rewrite Hsome. cbn.
      destruct (fst (SetCanonical B (snd (TxPoolSync B w)) parent)); cbn.
      * repeat split; intros; discriminate.
      * repeat split; intros; reflexivity.
  - intros Hp. rewrite Hp. cbn -[sealBlock]. split.
    + intros Hnone. rewrite Hnone. reflexivity.
    + intros parent Hsome. rewrite Hsome. cbn -[sealBlock].
      destruct (pop10 (withdrawals c)) as (popped & q & Hpop).
      exists popped, q. split; [exact Hpop |].
      rewrite Hpop. cbn -[sealBlock]. unfold uint64_of_int64.
      assert (Heta : forall r : Run SimulatedBeacon W unit,
                match r with
                | mkRun o d2 w2 t2 => mkRun o d2 w2 t2
                end = r) by (intros []; reflexivity).
      rewrite !Heta. split; [reflexivity |].
      intros attrs Hattrs.
      exact (sealBlock_build_timestamp B popped _ (set_withdrawals c q) w attrs
               Hattrs).
Qed.

End Methods.

(** ** Runs on the small engine *)

Lemma Sim_engine_buildsWithAttributes : buildsWithAttributes Sim.engine.
Proof.
  intros w state attrs version response id envelope. cbn.
  unfold Sim.propose.
  destruct (Sim.wProposeAnswer w) as [r |]; cbn.
  - intros _ _ H. discriminate H.
  - intros _ _ H. injection H as <-. reflexivity.
Qed.

(** C1 fails as stated.  After a rewind the resync guard installs the
    state of the live head before the pool sync fails; and when the
    second [forkchoiceUpdated] fails, the state of the new block is
    installed although the chain head is still the old one. *)
Lemma sealBlock_error_changes_forkchoice_state :
  let r := sealBlock Sim.engine [] 150 Sim.driver45 (Sim.syncFails Sim.rewound) in
  let r' := sealBlock Sim.engine [] 150 Sim.driver0
              (Sim.canonicalizeFails Sim.atGenesis) in
  outcome r = Failed "failed to sync txpool: pool stopped" /\
  curForkchoiceState (driverAfter r) <> curForkchoiceState Sim.driver45 /\
  outcome r' = Failed "engine stopped" /\
  curForkchoiceState (driverAfter r') <> curForkchoiceState Sim.driver0 /\
  CurrentBlock Sim.engine (worldAfter r') = Some (BlockHeader Sim.genesis).
Proof.
  cbv zeta. vm_compute. repeat split; discriminate.
Qed.

(** C2 on the code: with the cached head at block 45, the live head at
    block 40 and no block 32 in the chain, [finalizedBlockHash] returns
    nil and the resync guard panics on it, having issued no call; the
    finality step, on the same nil, returns its error. *)
Theorem resync_guard_nil_finalized_hash_panics :
  let r := sealBlock Sim.engine [] 150 Sim.driver45 Sim.rewoundTwice in
  let r' := sealBlock Sim.engine [] 150 Sim.driver40 Sim.epochDropped in
  outcome (finalizedBlockHash Sim.engine 40 Sim.driver45 Sim.rewoundTwice) = Done None /\
  outcome r = Crashed nilDereference /\
  trace r = [] /\
  outcome (finalizedBlockHash Sim.engine 41 Sim.driver40 Sim.epochDropped) = Done None /\
  outcome r' = Failed "chain rewind interrupted calculation of finalized block hash".
Proof.
  cbv zeta. vm_compute. repeat split.
Qed.

(** C4 fails as stated at the top of [uint64].  [AdjustTime] by -101
    seconds on a head of time 100 requests 2^64 - 1; the next cycle
    builds with timestamp 0, which is not [lastBlockTime + 1], and the
    two blocks produced have timestamps 2^64 - 1 and 0. *)
Lemma sealBlock_timestamp_wraps :
  let r1 := sealBlock Sim.engine [] MaxUint64 Sim.driver0 Sim.atGenesis in
  let r2 := sealBlock Sim.engine [] 150 (driverAfter r1) (worldAfter r1) in
  AdjustTime Sim.engine (-101 * Second) Sim.driver0 Sim.atGenesis = r1 /\
  outcome r1 = Done tt /\
  outcome r2 = Done tt /\
  150 <= lastBlockTime (driverAfter r1) /\
  option_map Timestamp (firstAttributes (trace r2)) = Some 0 /\
  0 <> lastBlockTime (driverAfter r1) + 1 /\
  sealBlocks Sim.engine Sim.driver0
    [mkSealRequest Sim.atGenesis [] MaxUint64;
     mkSealRequest (worldAfter r1) [] 150] = [MaxUint64; 0] /\
  ~ StronglySorted Z.lt [MaxUint64; 0].
Proof.
  cbv zeta. vm_compute. repeat split; try discriminate.
  intros H. inversion H as [| ? ? _ Hall]. inversion Hall as [| ? ? Hlt _].
  discriminate Hlt.
Qed.

Lemma sealBlock_timestamps_increase_witness :
  sealBlocks Sim.engine Sim.driver0
    [mkSealRequest Sim.atGenesis [] 50;
     mkSealRequest
       (worldAfter (sealBlock Sim.engine [] 50 Sim.driver0 Sim.atGenesis)) [] 50]
  = [101; 102] /\
  StronglySorted Z.lt [101; 102].
Proof.
  split; [reflexivity |].
  pose proof (sealBlock_timestamps_increase Sim.engine Sim.driver0
    [mkSealRequest Sim.atGenesis [] 50;
     mkSealRequest
       (worldAfter (sealBlock Sim.engine [] 50 Sim.driver0 Sim.atGenesis)) [] 50])
    as (_ & _ & H).
  apply H.
  - exact Sim_engine_buildsWithAttributes.
  - vm_compute. repeat split; discriminate.
Defined.

(** C8 fails as stated.  With an empty pool, [AdjustTime 0] on a head
    of time 100 seals a block of time 101, not 100 + 0; and [Fork] to a
    known block returns the error of [SetCanonical]. *)
Lemma Fork_AdjustTime_counter :
  let r := AdjustTime Sim.engine 0 Sim.driver0 Sim.atGenesis in
  let r' := Fork Sim.engine (Sim.hashOf 0) Sim.driver0
              (Sim.setCanonicalFails Sim.atGenesis) in
  TxPoolPending Sim.engine Sim.atGenesis = [] /\
  CurrentBlock Sim.engine Sim.atGenesis = Some (BlockHeader Sim.genesis) /\
  outcome r = Done tt /\
  sealedTimestamp r = Some 101 /\
  101 <> HeaderTime (BlockHeader Sim.genesis) + 0 /\
  TxPoolPending Sim.engine (Sim.setCanonicalFails Sim.atGenesis) = [] /\
  GetBlockByHash Sim.engine (Sim.setCanonicalFails Sim.atGenesis) (Sim.hashOf 0)
    = Some Sim.genesis /\
  outcome r' = Failed "chain stopped".
Proof.
  cbv zeta. vm_compute. repeat split; discriminate.
Qed.

(** The proposal is answered VALID with no payload ID. *)
Lemma sealBlock_known_payload_is_noop_witness :
  let known := mkForkChoiceResponse Sim.validStatus None in
  let w := Sim.proposeAnswers Sim.atGenesis (inr known) in
  let r := sealBlock Sim.engine [Sim.w1] 150 Sim.driver0 w in
  firstForkchoiceUpdated (trace r) = Some (inr known) /\
  outcome r = Done tt /\
  length (trace r) = 2%nat /\
  lastBlockTime (driverAfter r) = 100.
Proof.
  cbv zeta.
  split; [reflexivity |].
  destruct (sealBlock_known_payload_is_noop Sim.engine [Sim.w1] 150 Sim.driver0
              (Sim.proposeAnswers Sim.atGenesis
                 (inr (mkForkChoiceResponse Sim.validStatus None)))
              (mkForkChoiceResponse Sim.validStatus None)
              eq_refl eq_refl eq_refl)
    as (Hdone & (state & attrs & version & Htrace) & _ & _ & _ & Hlast).
  split; [exact Hdone |].
  split; [rewrite Htrace; reflexivity | exact Hlast].
Defined.

(** The proposal is answered INVALID, with a latest valid hash and no
    payload ID. *)
Lemma sealBlock_nil_payload_id_panics_witness :
  let invalid :=
    mkForkChoiceResponse
      (mkPayloadStatus None INVALID (Some (Sim.hashOf 0)) None) None in
  let w := Sim.proposeAnswers Sim.atGenesis (inr invalid) in
  let r := sealBlock Sim.engine [] 150 Sim.driver0 w in
  firstForkchoiceUpdated (trace r) = Some (inr invalid) /\
  is_STATUS_SYNCING invalid = false /\
  outcome r = Crashed nilDereference.
Proof.
  cbv zeta.
  split; [reflexivity |].
  split; [reflexivity |].
  destruct (sealBlock_nil_payload_id_panics Sim.engine [] 150 Sim.driver0
              (Sim.proposeAnswers Sim.atGenesis
                 (inr (mkForkChoiceResponse
                         (mkPayloadStatus None INVALID (Some (Sim.hashOf 0)) None)
                         None)))
              (mkForkChoiceResponse
                 (mkPayloadStatus None INVALID (Some (Sim.hashOf 0)) None) None)
              eq_refl eq_refl eq_refl)
    as (Hcrash & _).
  apply Hcrash. cbn. discriminate.
Defined.

(** The pool sync fails after the resync guard has run; and the second
    [forkchoiceUpdated] fails after block 1 was submitted. *)
Lemma sealBlock_error_forkchoice_state_witness :
  let r := sealBlock Sim.engine [] 150 Sim.driver45 (Sim.syncFails Sim.rewound) in
  let r' := sealBlock Sim.engine [] 150 Sim.driver0
              (Sim.canonicalizeFails Sim.atGenesis) in
  outcome r = Failed "failed to sync txpool: pool stopped" /\
  resyncedState Sim.engine Sim.driver45 (Sim.syncFails Sim.rewound)
    = Some (curForkchoiceState (driverAfter r)) /\
  outcome r' = Failed "engine stopped" /\
  newPayloadReturned (trace r') = Some (mkExecutableData 1 (Sim.hashOf 1) 150) /\
  HeadBlockHash (curForkchoiceState (driverAfter r')) = Sim.hashOf 1.
Proof.
  cbv zeta.
  split; [reflexivity |].
  pose proof (sealBlock_error_forkchoice_state Sim.engine [] 150 Sim.driver45
                (Sim.syncFails Sim.rewound) _ eq_refl) as H.
  cbv zeta in H.
  change (newPayloadReturned
            (trace (sealBlock Sim.engine [] 150 Sim.driver45
                      (Sim.syncFails Sim.rewound))))
    with (@None ExecutableData) in H.
  split; [exact (proj1 H) |].
  split; [reflexivity |].
  split; [reflexivity |].
  pose proof (sealBlock_error_forkchoice_state Sim.engine [] 150 Sim.driver0
                (Sim.canonicalizeFails Sim.atGenesis) _ eq_refl) as H'.
  cbv zeta in H'.
  change (newPayloadReturned
            (trace (sealBlock Sim.engine [] 150 Sim.driver0
                      (Sim.canonicalizeFails Sim.atGenesis))))
    with (Some (mkExecutableData 1 (Sim.hashOf 1) 150)) in H'.
  exact (proj1 H').
Defined.

(** A pool with one pending transaction. *)
Lemma Fork_AdjustTime_pool_gate_witness :
  let w := Sim.withPending Sim.atGenesis [5] in
  TxPoolPending Sim.engine w <> [] /\
  outcome (Fork Sim.engine (Sim.hashOf 0) Sim.driver0 w)
    = Failed "pending block dirty" /\
  AdjustTime Sim.engine Second Sim.driver0 w
    = mkRun (Failed "could not adjust time on non-empty block") Sim.driver0 w [].
Proof.
  cbv zeta.
  assert (Hp : TxPoolPending Sim.engine (Sim.withPending Sim.atGenesis [5]) <> [])
    by (cbn; discriminate).
  split; [exact Hp |].
  destruct (Fork_AdjustTime_pool_gate Sim.engine (Sim.hashOf 0) Second Sim.driver0
              (Sim.withPending Sim.atGenesis [5]))
    as (HFork & HAdjust & _).
  split.
  - destruct (HFork Hp) as [E _]. rewrite E. reflexivity.
  - exact (HAdjust Hp).
Defined.

(** The driver built at genesis, after one seal cycle. *)
Lemma Held_safe_is_head_witness :
  let c := driverAfter (sealBlock Sim.engine [] 150 Sim.driver0 Sim.atGenesis) in
  Held Sim.engine c /\
  SafeBlockHash (curForkchoiceState c) = HeadBlockHash (curForkchoiceState c).
Proof.
  cbv zeta.
  assert (H : Held Sim.engine
                (driverAfter (sealBlock Sim.engine [] 150 Sim.driver0 Sim.atGenesis))).
  { apply Held_sealBlock.
    apply (Held_new Sim.engine 0 9 Sim.atGenesis). reflexivity. }
  split; [exact H | exact (Held_safe_is_head Sim.engine _ H)].
Defined.

(** * Further properties of the code *)

(** ** The finality rule, continued *)

(** X1: the finalized number never decreases as the height grows, stays
    less than one epoch below the height, and is the same for all heights
    of an epoch. *)
Theorem finalizedNumber_monotone (a b : Z) :
  is_uint64 a -> is_uint64 b -> a <= b ->
  finalizedNumber a <= finalizedNumber b /\
  b - finalizedNumber b < devEpochLength /\
  (a / devEpochLength = b / devEpochLength -> finalizedNumber a = finalizedNumber b).
Proof.
  intros Ha Hb Hab.
  rewrite !finalizedNumber_round by assumption.
  unfold devEpochLength, is_uint64 in *.
  pose proof (Z.div_mod b 32 ltac:(lia)).
  pose proof (Z.mod_pos_bound b 32 ltac:(lia)).
  assert (a / 32 <= b / 32) by (apply Z.div_le_mono; lia).
  repeat split; lia.
Qed.

Lemma finalizedNumber_monotone_witness :
  is_uint64 45 /\ is_uint64 63 /\ 45 <= 63 /\
  finalizedNumber 45 <= finalizedNumber 63 /\
  63 - finalizedNumber 63 < devEpochLength.
Proof.
  assert (Ha : is_uint64 45) by (unfold is_uint64; lia).
  assert (Hb : is_uint64 63) by (unfold is_uint64; lia).
  assert (Hab : 45 <= 63) by lia.
  destruct (finalizedNumber_monotone 45 63 Ha Hb Hab) as (H1 & H2 & _).
  repeat split; try assumption; try lia; apply Ha || apply Hb.
Defined.

(** ** The withdrawal queue, continued *)

(** X2: two pops in a row return, together, what one pop of the summed
    count returns (the sum being an [int]), and leave the same queue. *)
Theorem pop_pop (q : withdrawalQueue) (n m : Z) :
  0 <= n -> 0 <= m -> n + m <= MaxInt64 ->
  exists p1 q1 p2 q2,
    pop q n = Some (p1, q1) /\
    pop q1 m = Some (p2, q2) /\
    pop q (n + m) = Some (p1 ++ p2, q2).
Proof.
  intros Hn Hm _.
  pose proof (pop_spec q n Hn) as H1. cbv zeta in H1.
  set (k1 := Z.to_nat (Z.min n (Z.of_nat (length (pending q))))) in *.
  set (q1 := mkQueue (skipn k1 (pending q))) in *.
  pose proof (pop_spec q1 m Hm) as H2. cbv zeta in H2.
  set (k2 := Z.to_nat (Z.min m (Z.of_nat (length (pending q1))))) in *.
  pose proof (pop_spec q (n + m) ltac:(lia)) as H3. cbv zeta in H3.
  set (k3 := Z.to_nat (Z.min (n + m) (Z.of_nat (length (pending q))))) in *.
  exists (firstn k1 (pending q)), q1, (firstn k2 (pending q1)),
    (mkQueue (skipn k2 (pending q1))).
  split; [exact H1 |]. split; [exact H2 |].
  rewrite H3.
  assert (Hlen1 : length (pending q1) = (length (pending q) - k1)%nat)
    by (unfold q1; cbn; apply length_skipn).
  assert (Hk : k3 = (k1 + k2)%nat) by (unfold k1, k2, k3; rewrite Hlen1; unfold k1; lia).
  rewrite Hk. unfold q1. cbn.
  rewrite skipn_skipn, (Nat.add_comm k2 k1).
  f_equal. f_equal.
  rewrite <- (firstn_skipn k1 (pending q)) at 1.
  rewrite firstn_app.
  assert (Hf : length (firstn k1 (pending q)) = k1)
    by (rewrite length_firstn; unfold k1; lia).
  rewrite Hf.
  replace (k1 + k2 - k1)%nat with k2 by lia.
  rewrite firstn_all2 by lia. reflexivity.
Qed.

Lemma pop_pop_witness :
  0 <= 1 /\ 0 <= 5 /\ 1 + 5 <= MaxInt64 /\
  pop (mkQueue [Sim.w1; Sim.w2; Sim.w3]) (1 + 5)
  = Some ([Sim.w1] ++ [Sim.w2; Sim.w3], mkQueue []).
Proof.
  assert (Hn : 0 <= 1) by lia. assert (Hm : 0 <= 5) by lia.
  assert (Hs : 1 + 5 <= MaxInt64) by (unfold MaxInt64; lia).
  split; [exact Hn |]. split; [exact Hm |]. split; [exact Hs |].
  destruct (pop_pop (mkQueue [Sim.w1; Sim.w2; Sim.w3]) 1 5 Hn Hm Hs)
    as (p1 & q1 & p2 & q2 & H1 & H2 & H3).
  injection H1 as <- <-. injection H2 as <- <-. exact H3.
Defined.

(** X3: a withdrawal added behind a queue is popped only after
    everything queued before it: a pop that the old queue can serve is
    not affected, and a larger one empties the queue and returns the
    withdrawal last. *)
Theorem pop_after_add (q : withdrawalQueue) (w : Withdrawal) (n : Z) :
  0 <= n ->
  (n <= Z.of_nat (length (pending q)) ->
   exists popped q',
     pop q n = Some (popped, q') /\
     pop (add q w) n = Some (popped, add q' w)) /\
  (Z.of_nat (length (pending q)) < n ->
   pop (add q w) n = Some (pending q ++ [w], emptyQueue)).
Proof.
  intros Hn. split.
  - intros Hle.
    pose proof (pop_spec q n Hn) as H1. cbv zeta in H1.
    pose proof (pop_spec (add q w) n Hn) as H2. cbv zeta in H2.
    eexists _, _. split; [exact H1 |].
    rewrite H2. unfold add. cbn. rewrite length_app. cbn.
    replace (Z.to_nat (Z.min n (Z.of_nat (length (pending q) + 1))))
      with (Z.to_nat n) by lia.
    replace (Z.to_nat (Z.min n (Z.of_nat (length (pending q)))))
      with (Z.to_nat n) by lia.
    rewrite firstn_app, skipn_app.
    replace (Z.to_nat n - length (pending q))%nat with 0%nat by lia.
    cbn. rewrite app_nil_r. reflexivity.
  - intros Hlt.
    pose proof (pop_spec (add q w) n Hn) as H2. cbv zeta in H2.
    rewrite H2. unfold add, emptyQueue. cbn. rewrite length_app. cbn.
    replace (Z.to_nat (Z.min n (Z.of_nat (length (pending q) + 1))))
      with (length (pending q ++ [w])) by (rewrite length_app; cbn; lia).
    rewrite firstn_all, skipn_all. reflexivity.
Qed.

Lemma pop_after_add_witness :
  0 <= 1 /\
  pop (add (mkQueue [Sim.w1; Sim.w2]) Sim.w3) 1
  = Some ([Sim.w1], mkQueue [Sim.w2; Sim.w3]).
Proof.
  assert (Hn : 0 <= 1) by lia.
  split; [exact Hn |].
  destruct (pop_after_add (mkQueue [Sim.w1; Sim.w2]) Sim.w3 1 Hn) as [H _].
  destruct (H ltac:(cbn; lia)) as (popped & q' & H1 & H2).
  injection H1 as <- <-. exact H2.
Defined.

(** ** The seal cycle, step by step *)

(** [seal_paths] with the normalized timestamp kept abstract. *)
Ltac seal_paths_at ts' :=
  unfold_driver; cbn;
  match goal with
  | |- context [if ?a <=? ?b then ?x else ?y] =>
      remember (if a <=? b then x else y) as ts'
  end;
  repeat (cbn; case_step); cbn.

Lemma pop_ten (q : withdrawalQueue) :
  pop q 10 = Some (firstn 10 (pending q), mkQueue (skipn 10 (pending q))).
Proof.
  rewrite (pop_spec q 10 ltac:(lia)). cbv zeta.
  destruct (Z.le_ge_cases 10 (Z.of_nat (length (pending q)))) as [H | H].
  - rewrite Z.min_l by exact H. reflexivity.
  - rewrite Z.min_r by exact H. rewrite Nat2Z.id.
    rewrite firstn_all, skipn_all.
    rewrite firstn_all2, skipn_all2 by lia. reflexivity.
Qed.

Lemma wrapInt64_small (z : Z) : - 2 ^ 63 <= z < 2 ^ 63 -> wrapInt64 z = z.
Proof.
  intros H. unfold wrapInt64. rewrite Z.mod_small by lia. lia.
Qed.

Lemma reset_duration_exact (p : Z) :
  0 <= p <= maxPeriod ->
  wrapInt64 (Second * wrapInt64 p) = Second * p /\
  0 <= Second * p <= MaxInt64.
Proof.
  intros H.
  assert (Hmax : maxPeriod = 9223372036) by reflexivity.
  rewrite Hmax in H. unfold Second, MaxInt64.
  rewrite (wrapInt64_small p) by lia.
  rewrite wrapInt64_small by lia. lia.
Qed.

Lemma run_eta {D W A : Type} (r : Run D W A) :
  match r with
  | mkRun o d w t => mkRun o d w t
  end = r.
Proof. destruct r. reflexivity. Qed.

Section SealSteps.

Context {W : Type} (B : Backend W).

Lemma calcBlobHashes_from (cs : list (list byte)) :
  forall acc,
    calcBlobHashes B cs acc =
      if forallb wellFormed cs then inr (acc ++ map (CalcBlobHashV1 B) cs)
      else inl "invalid commitment length"%string.
Proof.
  induction cs as [| commit rest IH]; intros acc; cbn.
  - now rewrite app_nil_r.
  - unfold wellFormed at 1.
    destruct (Nat.eqb (length commit) CommitmentLength); cbn.
    + rewrite IH, <- app_assoc. reflexivity.
    + reflexivity.
Qed.

(** X4: the loop over the commitments returns the blob hash of every
    commitment, in order, when all of them have 48 bytes, and the error
    "invalid commitment length" when one has not. *)
Theorem calcBlobHashes_all_or_error (cs : list (list byte)) :
  calcBlobHashes B cs [] =
    if forallb wellFormed cs then inr (map (CalcBlobHashV1 B) cs)
    else inl "invalid commitment length"%string.
Proof. exact (calcBlobHashes_from cs []). Qed.
Lemma sealBlock_static ws ts c w :
  let r := sealBlock B ws ts c w in
  period (driverAfter r) = period c /\
  withdrawals (driverAfter r) = withdrawals c /\
  feeRecipient (driverAfter r) = feeRecipient c.
Proof.
  intros r. subst r. seal_paths_at ts'.
  all: repeat split.
Qed.

Lemma sealBlock_first_attributes ws ts c w attrs :
  firstAttributes (trace (sealBlock B ws ts c w)) = Some attrs ->
  attrs =
    mkPayloadAttributes
      (if ts <=? lastBlockTime c then wrap64 (lastBlockTime c + 1) else ts)
      (fst (randRead B (snd (TxPoolSync B w)))) (feeRecipient c) ws
      (Some zeroHash).
Proof.
  seal_paths_at ts'.
  all: intros Hf; try discriminate Hf.
  all: injection Hf as <-; subst ts'; reflexivity.
Qed.

(** X5: whatever the engine answers, the calls of one seal cycle are an
    initial part of: pool sync, forkchoiceUpdated, getPayload,
    newPayload, forkchoiceUpdated.  No call is skipped or repeated, and
    neither [SetCanonical] nor the pool's [Clear] is ever called. *)
Theorem sealBlock_call_order ws ts c w :
  exists rest, map kindOf (trace (sealBlock B ws ts c w)) ++ rest = sealOrder.
Proof.
  seal_paths_at ts'.
  all: eexists; reflexivity.
Qed.

(** X6: the state sent with the proposal is the one the resync guard
    left, and its head is the hash of the live head of the chain, also
    when the cached head was another block. *)
Theorem sealBlock_proposes_on_live_head ws ts c w state :
  firstState (trace (sealBlock B ws ts c w)) = Some state ->
  resyncedState B c w = Some state /\
  exists header,
    CurrentBlock B w = Some header /\ HeadBlockHash state = HeaderHash header.
Proof.
  seal_paths_at ts'.
  all: intros Hf; try discriminate Hf.
  all: injection Hf as <-.
  all: read_tests.
  all: unfold resyncedState.
  all: repeat match goal with
         | H : ?x = _ |- context [?x] => rewrite H
         end.
  all: try rewrite Z.eqb_refl.
  all: repeat match goal with
         | H : ?a <> ?b |- context [?a =? ?b] =>
             rewrite (proj2 (Z.eqb_neq a b) H)
         end.
  all: split; [reflexivity | eexists; split; [reflexivity | try reflexivity; try assumption]].
Qed.

(** X7: the build attributes carry the fee recipient held at entry, the
    withdrawals of the call unchanged, a zero beacon root and the
    entropy drawn after the pool sync. *)
Theorem sealBlock_attributes ws ts c w attrs :
  firstAttributes (trace (sealBlock B ws ts c w)) = Some attrs ->
  SuggestedFeeRecipient attrs = feeRecipient c /\
  AttrWithdrawals attrs = ws /\
  BeaconRoot attrs = Some zeroHash /\
  Random attrs = fst (randRead B (snd (TxPoolSync B w))).
Proof.
  seal_paths_at ts'.
  all: intros Hf; try discriminate Hf.
  all: injection Hf as <-.
  all: repeat split.
Qed.

(** X8: a seal cycle never touches the period, the withdrawal queue or
    the fee recipient, and however it ends [lastBlockTime] is the
    timestamp of the block it produced, or unchanged when it produced
    none. *)
Theorem sealBlock_frame ws ts c w :
  let r := sealBlock B ws ts c w in
  period (driverAfter r) = period c /\
  withdrawals (driverAfter r) = withdrawals c /\
  feeRecipient (driverAfter r) = feeRecipient c /\
  lastBlockTime (driverAfter r) =
    match sealedTimestamp r with
    | Some t => t
    | None => lastBlockTime c
    end.
Proof.
  intros r. subst r. unfold sealedTimestamp.
  seal_paths_at ts'.
  all: repeat split.
Qed.


(** X10: [newPayload] receives the payload [getPayload] returned.  With
    version 3 it receives the blob hashes recomputed from the
    commitments of the envelope (none without a bundle), a zero beacon
    root and the requests of the envelope; with a lower version all three
    are nil. *)
Theorem sealBlock_post_shanghai_fields ws ts c w version envelope
  payload blobHashes beaconRoot requests :
  let r := sealBlock B ws ts c w in
  firstVersion (trace r) = Some version ->
  fetchedEnvelope (trace r) = Some envelope ->
  newPayloadArguments (trace r) = Some (payload, blobHashes, beaconRoot, requests) ->
  payload = ExecutionPayload envelope /\
  (version = PayloadV3 ->
   blobHashes = Some (blobHashesOf B envelope) /\
   beaconRoot = Some zeroHash /\
   requests = Requests envelope) /\
  (version <> PayloadV3 ->
   blobHashes = None /\ beaconRoot = None /\ requests = None).
Proof.
  intros r. subst r.
  seal_paths_at ts'.
  all: intros Hv He Hn; try discriminate Hv; try discriminate He;
    try discriminate Hn.
  all: injection Hv as <-; injection He as <-;
    injection Hn as <- <- <- <-.
  all: split; [reflexivity |].
  all: split; intros Hver; try discriminate Hver; try congruence.
  all: try (repeat split; fail).
  all: unfold blobHashesOf.
  all: repeat match goal with
         | H : BlobsBundle _ = _ |- _ => rewrite H
         | H : calcBlobHashes _ _ _ = inr _ |- _ =>
             rewrite calcBlobHashes_from in H;
             destruct (forallb wellFormed _); [injection H as <- | discriminate H]
         end.
  all: repeat split.
Qed.

(** X11: with version 3, an envelope holding a commitment that has not
    48 bytes is never submitted: no [newPayload] is issued, the call
    returns an error and [lastBlockTime] is unchanged. *)
Theorem sealBlock_rejects_malformed_commitment ws ts c w envelope bundle :
  let r := sealBlock B ws ts c w in
  firstVersion (trace r) = Some PayloadV3 ->
  fetchedEnvelope (trace r) = Some envelope ->
  BlobsBundle envelope = Some bundle ->
  forallb wellFormed (Commitments bundle) = false ->
  existsb isNewPayload (trace r) = false /\
  (outcome r = Failed "invalid commitment length" \/
   outcome r =
     Failed "chain rewind interrupted calculation of finalized block hash") /\
  lastBlockTime (driverAfter r) = lastBlockTime c.
Proof.
  intros r. subst r.
  seal_paths_at ts'.
  all: intros Hv He Hb Hbad; try discriminate Hv; try discriminate He.
  all: injection He as <-.
  all: try match goal with
         | H : BlobsBundle ?e = _, H' : BlobsBundle ?e = _ |- _ =>
             rewrite H in H'; try discriminate H'; injection H' as <-
         end.
  all: try match goal with
         | H : calcBlobHashes _ _ _ = _ |- _ =>
             rewrite calcBlobHashes_from, Hbad in H; try discriminate H;
             injection H as <-
         end.
  all: repeat split; auto.
Qed.

(** X12: every error of [sealBlock] is accounted for by the last call it
    made: the pool's error behind the prefix "failed to sync txpool: ",
    the engine's own error unchanged, the syncing message after a
    [STATUS_SYNCING] proposal, or one of the two messages of the steps
    that follow a successful [getPayload]. *)
Theorem sealBlock_error_provenance ws ts c w err :
  let r := sealBlock B ws ts c w in
  outcome r = Failed err ->
  match last (trace r) EvTxPoolClear with
  | EvTxPoolSync (Some e) => err = ("failed to sync txpool: " ++ e)%string
  | EvForkchoiceUpdated _ _ _ (inl e) => err = e
  | EvGetPayload _ _ (inl e) => err = e
  | EvNewPayload _ _ _ _ (inl e) => err = e
  | EvForkchoiceUpdated _ (Some _) _ (inr response) =>
      is_STATUS_SYNCING response = true /\
      err = "chain rewind prevented invocation of payload creation"%string
  | EvGetPayload _ _ (inr _) =>
      err = "chain rewind interrupted calculation of finalized block hash"%string
      \/ err = "invalid commitment length"%string
  | _ => False
  end.
Proof.
  intros r. subst r.
  seal_paths_at ts'.
  all: intros Hf; try discriminate Hf.
  all: injection Hf as <-.
  all: try reflexivity.
  all: try (split; [assumption | reflexivity]).
  all: try (left; reflexivity).
  all: match goal with
       | H : calcBlobHashes _ _ _ = inl _ |- _ =>
           rewrite calcBlobHashes_from in H;
           destruct (forallb wellFormed _); [discriminate H | injection H as <-]
       end.
  all: right; reflexivity.
Qed.

(** X13: when the proposal is answered [STATUS_SYNCING], the cycle ends
    there with the syncing error: nothing is fetched, [lastBlockTime] is
    unchanged and the state is the one the resync guard left. *)
Theorem sealBlock_syncing_aborts ws ts c w response :
  let r := sealBlock B ws ts c w in
  firstForkchoiceUpdated (trace r) = Some (inr response) ->
  is_STATUS_SYNCING response = true ->
  outcome r = Failed "chain rewind prevented invocation of payload creation" /\
  map kindOf (trace r) = [KTxPoolSync; KForkchoiceUpdated] /\
  lastBlockTime (driverAfter r) = lastBlockTime c /\
  resyncedState B c w = Some (curForkchoiceState (driverAfter r)).
Proof.
  intros r. subst r.
  seal_paths_at ts'.
  all: intros Hf Hs; try discriminate Hf.
  all: injection Hf as ->.
  all: try congruence.
  all: read_tests.
  all: unfold resyncedState.
  all: repeat match goal with
         | H : ?x = _ |- context [?x] => rewrite H
         end.
  all: try rewrite Z.eqb_refl.
  all: repeat match goal with
         | H : ?a <> ?b |- context [?a =? ?b] =>
             rewrite (proj2 (Z.eqb_neq a b) H)
         | H : ?a = ?b |- context [?a =? ?b] =>
             rewrite (proj2 (Z.eqb_eq a b) H)
         end.
  all: repeat split.
Qed.

(** X14: once the resync guard has passed, a failing pool sync ends the
    call with the wrapped error and a fork before the merge ends it with
    a panic; in both cases the engine was not called and the driver holds
    the resynced state. *)
Theorem sealBlock_before_proposal ws ts c w state :
  let r := sealBlock B ws ts c w in
  let ts' := if ts <=? lastBlockTime c then wrap64 (lastBlockTime c + 1) else ts in
  resyncedState B c w = Some state ->
  (forall e,
     fst (TxPoolSync B w) = Some e ->
     r = mkRun (Failed ("failed to sync txpool: " ++ e))
           (set_curForkchoiceState c state) (snd (TxPoolSync B w))
           [EvTxPoolSync (Some e)]) /\
  (fst (TxPoolSync B w) = None ->
   LatestFork B ts' = forks.PreMerge ->
   r = mkRun
         (Crashed "invalid fork, simulated beacon needs to be started post-merge")
         (set_curForkchoiceState c state) (snd (TxPoolSync B w))
         [EvTxPoolSync None]).
Proof.
  intros r ts'. subst r ts'. unfold resyncedState. unfold_driver. cbn.
  destruct (CurrentBlock B w) as [header |]; [| discriminate].
  cbn.
  destruct (HeadBlockHash (curForkchoiceState c) =? HeaderHash header); cbn.
  - intros [= <-]. split.
    + intros e He. rewrite He. cbn. destruct c; reflexivity.
    + intros He Hf. rewrite He. cbn. rewrite Hf. cbn. destruct c; reflexivity.
  - destruct (GetBlockByNumber B w _); [| discriminate]. cbn.
    intros [= <-]. split.
    + intros e He. rewrite He. reflexivity.
    + intros He Hf. rewrite He. cbn. rewrite Hf. reflexivity.
Qed.

End SealSteps.

(** ** The entry points *)

Section EntryPoints.

Context {W : Type} (B : Backend W).

(** X15: [Commit] never returns an error of the seal cycle.  It removes
    the first ten withdrawals from the queue whether or not the cycle
    succeeds, proposes exactly those with the normalized wall-clock time,
    and returns the hash of the head the chain has afterwards. *)
Theorem Commit_absorbs_errors c w :
  let r := Commit B c w in
  (forall err, outcome r <> Failed err) /\
  pending (withdrawals (driverAfter r)) = skipn 10 (pending (withdrawals c)) /\
  (forall attrs,
     firstAttributes (trace r) = Some attrs ->
     AttrWithdrawals attrs = firstn 10 (pending (withdrawals c)) /\
     Timestamp attrs =
       if uint64_of_int64 (timeNowUnix B w) <=? lastBlockTime c
       then wrap64 (lastBlockTime c + 1)
       else uint64_of_int64 (timeNowUnix B w)) /\
  (forall h,
     outcome r = Done h ->
     exists header,
       CurrentBlock B (worldAfter r) = Some header /\ h = HeaderHash header).
Proof.
  intros r. subst r.
  unfold Commit, popWithdrawals, bind, getDriver, setDriver, read, logged, deref,
    ret, crash.
  rewrite pop_ten.
  set (ws := firstn 10 (pending (withdrawals c))).
  set (c1 := set_withdrawals c (mkQueue (skipn 10 (pending (withdrawals c))))).
  set (now := uint64_of_int64 (timeNowUnix B w)).
  cbn -[sealBlock firstn skipn].
  pose proof (sealBlock_static B ws now c1 w) as (_ & Hq & _).
  pose proof (sealBlock_first_attributes B ws now c1 w) as Hattrs.
  destruct (sealBlock B ws now c1 w) as [o d1 w1 t1].
  change (withdrawals c1)
    with (mkQueue (skipn 10 (pending (withdrawals c)))) in Hq.
  cbn [driverAfter trace] in Hq, Hattrs.
  destruct o as [[] | err | msg]; cbn -[firstn skipn];
    try (destruct (CurrentBlock B w1) as [header |] eqn:Hhead;
         cbn -[firstn skipn]).
  all: rewrite ?app_nil_r.
  all: split; [intros ?; discriminate |].
  all: split; [rewrite Hq; reflexivity |].
  all: split;
    [intros attrs Ha; rewrite (Hattrs attrs Ha); split; reflexivity |].
  all: intros h Hh; try discriminate Hh.
  all: injection Hh as <-; eexists; split; [eassumption | reflexivity].
Qed.


Lemma NewSimulatedBeacon_period p feeRecipient w c :
  outcome (NewSimulatedBeacon B p feeRecipient tt w) = Done c ->
  period c = Z.min p maxPeriod.
Proof.
  unfold NewSimulatedBeacon, bind, read, deref, payloadVersion, call, ret, fail,
    crash.
  repeat (cbn; case_step); cbn.
  all: intros H; try discriminate H.
  all: injection H as <-; reflexivity.
Qed.

(** X17: the period of a new driver is the requested one capped at
    9223372036 seconds, so that [time.Second * time.Duration(period)]
    is computed without overflow; the cap never turns a mining driver
    into one that does not mine ([Start] skips the loop exactly when the
    requested period is zero). *)
Theorem NewSimulatedBeacon_period_clamped p feeRecipient w c :
  is_uint64 p ->
  outcome (NewSimulatedBeacon B p feeRecipient tt w) = Done c ->
  0 <= period c <= maxPeriod /\
  (p <= maxPeriod -> period c = p) /\
  wrapInt64 (Second * wrapInt64 (period c)) = Second * period c /\
  0 <= Second * period c <= MaxInt64 /\
  (forall w' : W, outcome (Start c w') = Done false <-> p = 0).
Proof.
  intros Hp Hnew.
  apply NewSimulatedBeacon_period in Hnew.
  assert (Hmax : maxPeriod = 9223372036) by reflexivity.
  assert (Hc : 0 <= period c <= maxPeriod)
    by (rewrite Hnew; unfold is_uint64 in Hp; lia).
  split; [exact Hc |].
  split; [intros; lia |].
  split; [apply reset_duration_exact; exact Hc |].
  split; [apply reset_duration_exact; exact Hc |].
  intros w'. unfold Start, bind, getDriver, ret. cbn.
  destruct (Z.eqb_spec (period c) 0) as [E | E]; cbn.
  - split; intros _; [unfold is_uint64 in Hp; lia | reflexivity].
  - split; intros H; [discriminate H | unfold is_uint64 in Hp; lia].
Qed.

(** X18: a timer tick of [loop] makes the calls of one seal attempt on
    the first ten withdrawals and removes them from the queue in every
    case; the timer is reset, with exactly period seconds, when the
    attempt returns nil, and is not reset when it returns an error. *)
Theorem loopTimerCase_reset c w :
  0 <= period c <= maxPeriod ->
  let r := loopTimerCase B c w in
  let attempt :=
    sealBlock B (firstn 10 (pending (withdrawals c)))
      (uint64_of_int64 (timeNowUnix B w))
      (set_withdrawals c (mkQueue (skipn 10 (pending (withdrawals c))))) w in
  pending (withdrawals (driverAfter r)) = skipn 10 (pending (withdrawals c)) /\
  trace r = trace attempt /\
  (outcome attempt = Done tt -> outcome r = Done (Some (Second * period c))) /\
  (forall err, outcome attempt = Failed err -> outcome r = Done None) /\
  (forall d, outcome r = Done (Some d) -> 0 <= d <= MaxInt64).
Proof.
  intros Hp r attempt. subst r attempt.
  unfold loopTimerCase, popWithdrawals, bind, getDriver, setDriver, read, logged,
    ret.
  rewrite pop_ten.
  set (ws := firstn 10 (pending (withdrawals c))).
  set (c1 := set_withdrawals c (mkQueue (skipn 10 (pending (withdrawals c))))).
  set (now := uint64_of_int64 (timeNowUnix B w)).
  cbn -[sealBlock wrapInt64 Z.mul firstn skipn].
  pose proof (sealBlock_static B ws now c1 w) as (Hper & Hq & _).
  destruct (sealBlock B ws now c1 w) as [o d1 w1 t1].
  change (period c1) with (period c) in Hper.
  change (withdrawals c1)
    with (mkQueue (skipn 10 (pending (withdrawals c)))) in Hq.
  cbn [driverAfter] in Hq, Hper.
  destruct (reset_duration_exact (period c) Hp) as [Hexact Hrange].
  destruct o as [[] | err | msg]; cbn -[wrapInt64 Z.mul firstn skipn].
  all: rewrite ?app_nil_r, ?Hper, ?Hexact.
  all: split; [rewrite Hq; reflexivity |].
  all: split; [reflexivity |].
  all: split; [intros H; try discriminate H; reflexivity |].
  all: split; [intros ? H; try discriminate H; reflexivity |].
  all: intros d H; try discriminate H.
  injection H as <-. exact Hrange.
Qed.

Lemma AdjustTime_runs_sealBlock adjustment c w parent :
  TxPoolPending B w = [] ->
  CurrentBlock B w = Some parent ->
  AdjustTime B adjustment c w =
    sealBlock B (firstn 10 (pending (withdrawals c)))
      (wrap64 (HeaderTime parent + wrap64 (Z.quot adjustment Second)))
      (set_withdrawals c (mkQueue (skipn 10 (pending (withdrawals c))))) w.
Proof.
  intros Hp Hhead.
  unfold AdjustTime, popWithdrawals, bind, getDriver, setDriver, read, ret, fail.
  rewrite Hp. cbn -[sealBlock firstn skipn]. rewrite Hhead, pop_ten.
  cbn -[sealBlock firstn skipn]. unfold uint64_of_int64.
  rewrite !run_eta. reflexivity.
Qed.

(** X19: with an empty pool, when the head time plus the adjustment in
    whole seconds (truncated toward zero, possibly negative) is a
    [uint64], [AdjustTime] proposes the first ten withdrawals with that
    timestamp if it exceeds [lastBlockTime], and with
    (lastBlockTime + 1) mod 2^64 otherwise. *)
Theorem AdjustTime_requested_timestamp adjustment c w parent attrs :
  TxPoolPending B w = [] ->
  CurrentBlock B w = Some parent ->
  0 <= HeaderTime parent + Z.quot adjustment Second < 2 ^ 64 ->
  firstAttributes (trace (AdjustTime B adjustment c w)) = Some attrs ->
  AttrWithdrawals attrs = firstn 10 (pending (withdrawals c)) /\
  (lastBlockTime c < HeaderTime parent + Z.quot adjustment Second ->
   Timestamp attrs = HeaderTime parent + Z.quot adjustment Second) /\
  (HeaderTime parent + Z.quot adjustment Second <= lastBlockTime c ->
   Timestamp attrs = wrap64 (lastBlockTime c + 1)).
Proof.
  intros Hp Hhead Hrange Ha.
  rewrite (AdjustTime_runs_sealBlock adjustment c w parent Hp Hhead) in Ha.
  apply sealBlock_first_attributes in Ha. subst attrs. cbn.
  assert (Hreq : wrap64 (HeaderTime parent + wrap64 (Z.quot adjustment Second))
                 = HeaderTime parent + Z.quot adjustment Second).
  { unfold wrap64. rewrite Zplus_mod_idemp_r. apply Z.mod_small. exact Hrange. }
  rewrite Hreq.
  split; [reflexivity |].
  split; intros H.
  - destruct (Z.leb_spec (HeaderTime parent + Z.quot adjustment Second)
                (lastBlockTime c)); [lia | reflexivity].
  - destruct (Z.leb_spec (HeaderTime parent + Z.quot adjustment Second)
                (lastBlockTime c)); [reflexivity | lia].
Qed.

Lemma sealBlock_periodClamped ws ts :
  preserves periodClamped (sealBlock B ws ts).
Proof.
  unfold sealBlock.
  repeat first
    [ apply (payloadVersion_preserves B)
    | apply (finalizedBlockHash_preserves B)
    | preserve_step ];
    assumption.
Qed.

Lemma popWithdrawals_periodClamped count :
  preserves periodClamped (@popWithdrawals W count).
Proof. unfold popWithdrawals. repeat preserve_step; assumption. Qed.

(** X20: no method changes the cap: every driver a process can hold has
    a period of at most 9223372036 seconds, whose duration in nanoseconds
    fits [time.Duration]. *)
Theorem Held_period_clamped c :
  Held B c -> period c <= maxPeriod /\ Second * period c <= MaxInt64.
Proof.
  intros H.
  assert (Hc : periodClamped c).
  { induction H as [period feeRecipient w c Hnew
                   | c headHash finalizedHash w _ IH
                   | c ws ts w _ IH
                   | c w _ IH
                   | c parentHash w _ IH
                   | c adjustment w _ IH
                   | c w _ IH
                   | c withdrawal w _ IH
                   | c a w _ IH].
    - revert Hnew.
      unfold NewSimulatedBeacon, bind, read, deref, payloadVersion, call, ret,
        fail, crash.
      repeat (cbn; case_step); cbn.
      all: intros H; try discriminate H.
      all: injection H as <-; unfold periodClamped; cbn; lia.
    - exact IH.
    - exact (sealBlock_periodClamped _ _ _ _ IH).
    - revert IH. generalize c w. change (preserves periodClamped (Commit B)).
      unfold Commit.
      repeat first
        [ apply sealBlock_periodClamped
        | apply popWithdrawals_periodClamped
        | preserve_step ].
    - revert IH. generalize c w.
      change (preserves periodClamped (Fork B parentHash)).
      unfold Fork. repeat preserve_step.
    - revert IH. generalize c w.
      change (preserves periodClamped (AdjustTime B adjustment)).
      unfold AdjustTime.
      repeat first
        [ apply sealBlock_periodClamped
        | apply popWithdrawals_periodClamped
        | preserve_step ].
    - exact IH.
    - exact IH.
    - exact IH. }
  unfold periodClamped in Hc.
  assert (Hmax : maxPeriod = 9223372036) by reflexivity.
  unfold Second, MaxInt64. lia.
Qed.

End EntryPoints.

(** ** Runs of the further properties on the small engine *)

Lemma sealBlock_proposes_on_live_head_witness :
  let r := sealBlock Sim.engine [] 150 Sim.driver45 Sim.rewound in
  firstState (trace r)
    = Some (mkForkchoiceState (Sim.hashOf 40) (Sim.hashOf 40) (Sim.hashOf 32)) /\
  resyncedState Sim.engine Sim.driver45 Sim.rewound
    = Some (mkForkchoiceState (Sim.hashOf 40) (Sim.hashOf 40) (Sim.hashOf 32)).
Proof.
  cbv zeta. split; [reflexivity |].
  exact (proj1 (sealBlock_proposes_on_live_head Sim.engine [] 150 Sim.driver45
                  Sim.rewound _ eq_refl)).
Defined.

Lemma sealBlock_attributes_witness :
  let r := sealBlock Sim.engine [Sim.w1; Sim.w2] 150 Sim.driver0 Sim.atGenesis in
  exists attrs,
    firstAttributes (trace r) = Some attrs /\
    SuggestedFeeRecipient attrs = 9 /\
    AttrWithdrawals attrs = [Sim.w1; Sim.w2].
Proof.
  cbv zeta. eexists. split; [reflexivity |].
  destruct (sealBlock_attributes Sim.engine [Sim.w1; Sim.w2] 150 Sim.driver0
              Sim.atGenesis _ eq_refl) as (H1 & H2 & _).
  split; [exact H1 | exact H2].
Defined.


Lemma sealBlock_post_shanghai_fields_witness :
  let B := SimBlobs.engine (mkBlobsBundle [SimBlobs.commitment48]) (Some []) in
  let envelope :=
    mkEnvelope (mkExecutableData 1 (Sim.hashOf 1) 150)
      (Some (mkBlobsBundle [SimBlobs.commitment48])) (Some []) in
  let r := sealBlock B [] 150 Sim.driver0 Sim.atGenesis in
  firstVersion (trace r) = Some PayloadV3 /\
  fetchedEnvelope (trace r) = Some envelope /\
  newPayloadArguments (trace r)
    = Some (ExecutionPayload envelope, Some [1], Some zeroHash, Some []) /\
  Some [1] = Some (blobHashesOf B envelope).
Proof.
  cbv zeta. split; [reflexivity |]. split; [reflexivity |].
  split; [reflexivity |].
  destruct (sealBlock_post_shanghai_fields
              (SimBlobs.engine (mkBlobsBundle [SimBlobs.commitment48]) (Some []))
              [] 150 Sim.driver0 Sim.atGenesis PayloadV3
              (mkEnvelope (mkExecutableData 1 (Sim.hashOf 1) 150)
                 (Some (mkBlobsBundle [SimBlobs.commitment48])) (Some []))
              (mkExecutableData 1 (Sim.hashOf 1) 150) (Some [1]) (Some zeroHash)
              (Some []) eq_refl eq_refl eq_refl) as (_ & H3 & _).
  exact (proj1 (H3 eq_refl)).
Defined.

Lemma sealBlock_rejects_malformed_commitment_witness :
  let bundle := mkBlobsBundle [SimBlobs.commitment48; SimBlobs.commitment47] in
  let r := sealBlock (SimBlobs.engine bundle None) [] 150 Sim.driver0
             Sim.atGenesis in
  forallb wellFormed (Commitments bundle) = false /\
  existsb isNewPayload (trace r) = false /\
  outcome r = Failed "invalid commitment length".
Proof.
  cbv zeta. split; [reflexivity |].
  destruct (sealBlock_rejects_malformed_commitment
              (SimBlobs.engine
                 (mkBlobsBundle [SimBlobs.commitment48; SimBlobs.commitment47])
                 None)
              [] 150 Sim.driver0 Sim.atGenesis
              (mkEnvelope (mkExecutableData 1 (Sim.hashOf 1) 150)
                 (Some (mkBlobsBundle
                          [SimBlobs.commitment48; SimBlobs.commitment47])) None)
              (mkBlobsBundle [SimBlobs.commitment48; SimBlobs.commitment47])
              eq_refl eq_refl eq_refl eq_refl) as (Hnone & _ & _).
  split; [exact Hnone | reflexivity].
Defined.

Lemma sealBlock_error_provenance_witness :
  let r := sealBlock Sim.engine [] 150 Sim.driver0
             (Sim.canonicalizeFails Sim.atGenesis) in
  outcome r = Failed "engine stopped" /\
  match last (trace r) EvTxPoolClear with
  | EvForkchoiceUpdated _ None _ (inl e) => e = "engine stopped"%string
  | _ => False
  end.
Proof.
  cbv zeta. split; [reflexivity |].
  exact (sealBlock_error_provenance Sim.engine [] 150 Sim.driver0
           (Sim.canonicalizeFails Sim.atGenesis) _ eq_refl).
Defined.

Lemma sealBlock_syncing_aborts_witness :
  let w := Sim.proposeAnswers Sim.atGenesis (inr STATUS_SYNCING) in
  let r := sealBlock Sim.engine [] 150 Sim.driver0 w in
  firstForkchoiceUpdated (trace r) = Some (inr STATUS_SYNCING) /\
  outcome r = Failed "chain rewind prevented invocation of payload creation".
Proof.
  cbv zeta. split; [reflexivity |].
  exact (proj1 (sealBlock_syncing_aborts Sim.engine [] 150 Sim.driver0
                  (Sim.proposeAnswers Sim.atGenesis (inr STATUS_SYNCING))
                  STATUS_SYNCING eq_refl eq_refl)).
Defined.

Lemma sealBlock_before_proposal_witness :
  sealBlock Sim.engine [] 150 Sim.driver45 (Sim.syncFails Sim.rewound)
  = mkRun (Failed "failed to sync txpool: pool stopped")
      (set_curForkchoiceState Sim.driver45
         (mkForkchoiceState (Sim.hashOf 40) (Sim.hashOf 40) (Sim.hashOf 32)))
      (Sim.syncFails Sim.rewound) [EvTxPoolSync (Some "pool stopped"%string)].
Proof.
  destruct (sealBlock_before_proposal Sim.engine [] 150 Sim.driver45
              (Sim.syncFails Sim.rewound)
              (mkForkchoiceState (Sim.hashOf 40) (Sim.hashOf 40) (Sim.hashOf 32))
              eq_refl) as [H _].
  exact (H "pool stopped"%string eq_refl).
Defined.


Lemma NewSimulatedBeacon_period_clamped_witness :
  is_uint64 (2 ^ 64 - 1) /\
  exists c,
    outcome (NewSimulatedBeacon Sim.engine (2 ^ 64 - 1) 9 tt Sim.atGenesis) = Done c /\
    period c = 9223372036 /\
    0 <= Second * period c <= MaxInt64.
Proof.
  assert (Hp : is_uint64 (2 ^ 64 - 1)) by (unfold is_uint64; lia).
  split; [exact Hp |].
  eexists. split; [reflexivity |].
  split; [reflexivity |].
  destruct (NewSimulatedBeacon_period_clamped Sim.engine (2 ^ 64 - 1) 9
              Sim.atGenesis _ Hp eq_refl) as (_ & _ & _ & H & _).
  exact H.
Defined.

Lemma loopTimerCase_reset_witness :
  let c := mkSimulatedBeacon 12 (mkQueue [Sim.w1]) 9
             (mkForkchoiceState (Sim.hashOf 0) (Sim.hashOf 0) (Sim.hashOf 0)) 100 in
  0 <= period c <= maxPeriod /\
  outcome (loopTimerCase Sim.engine c Sim.atGenesis) = Done (Some (12 * Second)) /\
  outcome (loopTimerCase Sim.engine c (Sim.syncFails Sim.atGenesis)) = Done None /\
  pending (withdrawals (driverAfter
             (loopTimerCase Sim.engine c (Sim.syncFails Sim.atGenesis)))) = [].
Proof.
  cbv zeta.
  assert (Hp : 0 <= 12 <= maxPeriod) by (unfold maxPeriod, MaxInt64, Second; cbn; lia).
  split; [exact Hp |].
  destruct (loopTimerCase_reset Sim.engine
              (mkSimulatedBeacon 12 (mkQueue [Sim.w1]) 9
                 (mkForkchoiceState (Sim.hashOf 0) (Sim.hashOf 0) (Sim.hashOf 0))
                 100)
              Sim.atGenesis Hp) as (_ & _ & Hok & _).
  split; [exact (Hok eq_refl) |].
  split; reflexivity.
Defined.

Lemma AdjustTime_requested_timestamp_witness :
  let r := AdjustTime Sim.engine (-30 * Second) Sim.driver0 Sim.atGenesis in
  0 <= 100 + Z.quot (-30 * Second) Second < 2 ^ 64 /\
  exists attrs,
    firstAttributes (trace r) = Some attrs /\
    Timestamp attrs = wrap64 (100 + 1).
Proof.
  cbv zeta.
  assert (Hr : 0 <= HeaderTime (BlockHeader Sim.genesis)
                    + Z.quot (-30 * Second) Second < 2 ^ 64)
    by (cbn; lia).
  split; [exact Hr |].
  eexists. split; [reflexivity |].
  destruct (AdjustTime_requested_timestamp Sim.engine (-30 * Second) Sim.driver0
              Sim.atGenesis (BlockHeader Sim.genesis) _ eq_refl eq_refl Hr eq_refl)
    as (_ & _ & H).
  apply H. cbn. lia.
Defined.

Lemma Held_period_clamped_witness :
  exists c,
    outcome (NewSimulatedBeacon Sim.engine (2 ^ 64 - 1) 9 tt Sim.atGenesis) = Done c /\
    Held Sim.engine c /\
    Second * period c <= MaxInt64.
Proof.
  eexists. split; [reflexivity |].
  assert (H : Held Sim.engine
                (mkSimulatedBeacon 9223372036 emptyQueue 9
                   (mkForkchoiceState (Sim.hashOf 0) (Sim.hashOf 0) (Sim.hashOf 0))
                   100))
    by (apply (Held_new Sim.engine (2 ^ 64 - 1) 9 Sim.atGenesis); reflexivity).
  split; [exact H |].
  exact (proj2 (Held_period_clamped Sim.engine _ H)).
Defined.
